(** * The request router of xhr-mock: [packages/router/src/Router.ts]

    A shallow embedding of the [Router] class: the registration methods
    ([use] and the HTTP-verb wrappers), the event subscription methods
    ([on], [off]) and the two dispatch entry points ([routeSync],
    [routeAsync]), followed by the properties of the specification that
    concern them.

    JavaScript objects are finite maps from property names to values,
    exceptions are an outcome of a computation, and the methods are
    computations over the router's fields, the state of the environment
    and the history of the events emitted so far. *)

From stdpp Require Import gmap strings list.
From Stdlib Require Import ZArith.

Set Default Proof Using "Type*".

(** ** JavaScript values *)

(** A function value is a reference: two functions are the same when they
    are the same reference. *)
Definition Fn := nat.

#[warnings="-register-all"]
Inductive JsVal : Type :=
| VUndefined
| VNull
| VBool (b : bool)
| VNum (n : Z)
| VStr (s : string)
| VFun (f : Fn)
| VObj (o : gmap string JsVal)
| VError (name message : string).

(** [Request], [Response], [Context], [RouteOptions] and [RouteResult] are
    plain objects. *)
Abbreviation Obj := (gmap string JsVal).

(** The truth value JavaScript gives to a value in a condition. *)
Definition truthy (v : JsVal) : bool :=
  match v with
  | VUndefined | VNull => false
  | VBool b => b
  | VNum n => negb (n =? 0)%Z
  | VStr EmptyString => false
  | VStr (String _ _) => true
  | VFun _ | VObj _ | VError _ _ => true
  end.

(** [typeof v === 'function'] *)
Definition is_function (v : JsVal) : bool :=
  match v with
  | VFun _ => true
  | _ => false
  end.

(** [o.k]: a property that is absent reads as [undefined]. *)
Definition get_prop (o : Obj) (k : string) : JsVal :=
  default VUndefined (o !! k).

(** [{k1: v1, k2: v2, ...o}]: the properties of [o] are copied last and
    replace those written before them. *)
Definition spread_over (o : Obj) (literal : Obj) : Obj := o ∪ literal.

(** ** Outcomes *)

(** A call returns a value, throws a value, or does not complete. *)
Inductive Completion (A : Type) : Type :=
| Normal (a : A)
| Throw (e : JsVal)
| Diverge.
Arguments Normal {A} a.
Arguments Throw {A} e.
Arguments Diverge {A}.

(** The promise an [async] function returns, as it eventually is. *)
Inductive Promise (A : Type) : Type :=
| Fulfilled (a : A)
| Rejected (e : JsVal)
| Pending.
Arguments Fulfilled {A} a.
Arguments Rejected {A} e.
Arguments Pending {A}.

(** [await p] inside a [try]. *)
Definition await {A} (p : Promise A) : Completion A :=
  match p with
  | Fulfilled a => Normal a
  | Rejected e => Throw e
  | Pending => Diverge
  end.

(** The promise of an [async] function whose body completes with [c]. *)
Definition async {A} (c : Completion A) : Promise A :=
  match c with
  | Normal a => Fulfilled a
  | Throw e => Rejected e
  | Diverge => Pending
  end.

(** ** Events *)

Inductive EventType : Type := Before | After | Error.

#[global] Instance EventType_eq_dec : EqDecision EventType.
Proof. solve_decision. Defined.

Definition type_name (type : EventType) : string :=
  match type with
  | Before => "before"
  | After => "after"
  | Error => "error"
  end.

(** The payloads [BeforeEvent], [AfterEvent] and [ErrorEvent]. *)
Inductive Event : Type :=
| BeforeEvent (request context : Obj)
| AfterEvent (request response context : Obj)
| ErrorEvent (request : Obj) (error : JsVal) (context : Obj).

Definition event_type (ev : Event) : EventType :=
  match ev with
  | BeforeEvent _ _ => Before
  | AfterEvent _ _ _ => After
  | ErrorEvent _ _ _ => Error
  end.

(** ** The collaborators of the router *)

Inductive ExecutionContext : Type := Synchronous | Asynchronous.

(** The argument of [normaliseContext]: [{execution: ...}]. *)
Record PartialContext : Type := { execution : ExecutionContext }.

(** The functions [Router.ts] imports from [./utils], and the behaviour of
    the listeners, over the state of the environment ([World]).  They do
    not call back into the router. *)
Class Collaborators : Type := {
  World : Type;
  defaultErrorListener : Fn;
  createMiddleware : JsVal -> JsVal -> JsVal -> Completion Fn;
  normaliseRequest : Obj -> Completion Obj;
  normaliseContext : PartialContext -> Completion Obj;
  routeSync : Obj -> Obj -> list Fn -> World -> World * Completion Obj;
  routeAsync : Obj -> Obj -> list Fn -> World -> World * Promise Obj;
  isRedirect : Obj -> Completion bool;
  (** what calling the listener [f] with a payload does *)
  call_listener : Fn -> Event -> World -> World * Completion unit;
}.

(** ** The router's fields and the state of a run *)

(** [emitter] holds, for each event type, the handlers in subscription
    order; [middleware] is the chain. *)
Record Router : Type := {
  emitter : gmap string (list Fn);
  middleware : list Fn;
}.

Section WithCollaborators.
Context `{C : Collaborators}.

(** [emitted] is the history of the calls to [emit]; [delivered] the
    history of the calls to listeners. *)
Record State : Type := {
  router : Router;
  world : World;
  emitted : list Event;
  delivered : list (Fn * Event);
}.

Definition set_router (r : Router) (s : State) : State :=
  {| router := r; world := world s; emitted := emitted s;
     delivered := delivered s |}.

Definition set_world (w : World) (s : State) : State :=
  {| router := router s; world := w; emitted := emitted s;
     delivered := delivered s |}.

Definition log_emitted (ev : Event) (s : State) : State :=
  {| router := router s; world := world s; emitted := emitted s ++ [ev];
     delivered := delivered s |}.

Definition log_delivered (f : Fn) (ev : Event) (s : State) : State :=
  {| router := router s; world := world s; emitted := emitted s;
     delivered := delivered s ++ [(f, ev)] |}.

(** ** Computations *)

Definition M (A : Type) : Type := State -> State * Completion A.

Definition ret {A} (a : A) : M A := fun s => (s, Normal a).

Definition throw {A} (e : JsVal) : M A := fun s => (s, Throw e).

Definition diverge {A} : M A := fun s => (s, Diverge).

Definition bind {A B} (m : M A) (k : A -> M B) : M B :=
  fun s =>
    match m s with
    | (s', Normal a) => k a s'
    | (s', Throw e) => (s', Throw e)
    | (s', Diverge) => (s', Diverge)
    end.

(** [try { m } catch (error) { handler error }] *)
Definition try_catch {A} (m : M A) (handler : JsVal -> M A) : M A :=
  fun s =>
    match m s with
    | (s', Throw e) => handler e s'
    | r => r
    end.

(** A call to a function that does not touch the environment. *)
Definition pure_call {A} (c : Completion A) : M A := fun s => (s, c).

(** A call to a function of the environment. *)
Definition world_call {A} (f : World -> World * Completion A) : M A :=
  fun s => let '(w, c) := f (world s) in (set_world w s, c).

End WithCollaborators.

Declare Scope router_scope.
Delimit Scope router_scope with router.
Notation "x <- m ;; k" := (bind m (fun x => k))
  (at level 100, m at next level, right associativity) : router_scope.
Notation "m ;; k" := (bind m (fun _ => k))
  (at level 100, right associativity) : router_scope.
Open Scope router_scope.

Section Loops.
Context `{C : Collaborators}.

(** [do { a = body } while (cond a)], run for at most [fuel] passes. *)
Fixpoint do_while {A} (fuel : nat) (body : M A) (cond : A -> M bool) : M A :=
  match fuel with
  | O => diverge
  | S fuel' =>
      a <- body ;;
      again <- cond a ;;
      if again then do_while fuel' body cond else ret a
  end.

End Loops.

(** ** The event bus *)

(** Modelled from the spec: the event bus is the [mitt] package, which is
    not part of the sources.  It keeps one list of handlers per event type;
    [on] appends a handler, [off] removes the given handler reference (its
    first occurrence; nothing happens when it is not subscribed), and [emit]
    calls the handlers of the type in subscription order.  A handler that
    throws ends the call to [emit] with its exception. *)
Module Emitter.
Section WithCollaborators.
Context `{C : Collaborators}.

Fixpoint remove_first (handler : Fn) (handlers : list Fn) : list Fn :=
  match handlers with
  | [] => []
  | h :: rest =>
      if decide (h = handler) then rest else h :: remove_first handler rest
  end.

Definition handlers_of (all : gmap string (list Fn)) (type : string)
  : list Fn :=
  default [] (all !! type).

Definition on (type : string) (handler : Fn) (all : gmap string (list Fn))
  : gmap string (list Fn) :=
  <[type := handlers_of all type ++ [handler]]> all.

Definition off (type : string) (handler : Fn) (all : gmap string (list Fn))
  : gmap string (list Fn) :=
  match all !! type with
  | Some handlers => <[type := remove_first handler handlers]> all
  | None => all
  end.

(** One call to a listener, recorded in [delivered]. *)
Definition invoke (handler : Fn) (ev : Event) : M unit :=
  fun s => world_call (call_listener handler ev) (log_delivered handler ev s).

Fixpoint invoke_all (handlers : list Fn) (ev : Event) : M unit :=
  match handlers with
  | [] => ret tt
  | h :: rest => invoke h ev ;; invoke_all rest ev
  end.

(** [emitter.emit(type, ev)], recorded in [emitted]. *)
Definition emit (type : string) (ev : Event) : M unit :=
  fun s =>
    invoke_all (handlers_of (emitter (router s)) type) ev (log_emitted ev s).

End WithCollaborators.
End Emitter.

(** ** The class [Router] *)

Module Router.
Section WithCollaborators.
Context `{C : Collaborators}.

(** [return this] *)
Definition return_this : M Router := fun s => (s, Normal (router s)).

(** [this.emitter.on(type, listener)] *)
Definition emitter_on (type : EventType) (listener : Fn) : M unit :=
  fun s =>
    (set_router
       {| emitter := Emitter.on (type_name type) listener (emitter (router s));
          middleware := middleware (router s) |} s,
     Normal tt).

(** [this.emitter.off(type, listener)] *)
Definition emitter_off (type : EventType) (listener : Fn) : M unit :=
  fun s =>
    (set_router
       {| emitter := Emitter.off (type_name type) listener (emitter (router s));
          middleware := middleware (router s) |} s,
     Normal tt).

(** [this.middleware.push(m)] *)
Definition middleware_push (m : Fn) : M unit :=
  fun s =>
    (set_router
       {| emitter := emitter (router s);
          middleware := middleware (router s) ++ [m] |} s,
     Normal tt).

(** [this.middleware] *)
Definition this_middleware : M (list Fn) :=
  fun s => (s, Normal (middleware (router s))).

(** The fields of a new router: no middleware, and the default listener
    subscribed to [error]. *)
Definition constructor : Router :=
  {| emitter := Emitter.on (type_name Error) defaultErrorListener ∅;
     middleware := [] |}.

Definition emitBeforeEvent (request context : Obj) : M unit :=
  Emitter.emit "before" (BeforeEvent request context).

Definition emitAfterEvent (request response context : Obj) : M unit :=
  Emitter.emit "after" (AfterEvent request response context).

Definition emitErrorEvent (request : Obj) (error : JsVal) (context : Obj)
  : M unit :=
  Emitter.emit "error" (ErrorEvent request error context).

Definition on (type : EventType) (listener : Fn) : M Router :=
  emitter_on type listener ;;
  (if decide (type = Error)
   then emitter_off Error defaultErrorListener
   else ret tt) ;;
  return_this.

Definition off (type : EventType) (listener : Fn) : M Router :=
  emitter_off type listener ;;
  return_this.

(** [use(methodOrMiddleware, path?, middlewareOrResponse?)]; an argument
    that is left out is [undefined]. *)
Definition use (methodOrMiddleware path middlewareOrResponse : JsVal)
  : M Router :=
  match methodOrMiddleware with
  | VFun f => middleware_push f
  | _ =>
      if truthy path && truthy middlewareOrResponse then
        m <- pure_call
               (createMiddleware methodOrMiddleware path middlewareOrResponse) ;;
        middleware_push m
      else throw (VError "TypeError" "Invalid arguments.")
  end ;;
  return_this.

Definition all (path middlewareOrResponse : JsVal) : M Router :=
  use (VStr "*") path middlewareOrResponse ;; return_this.

Definition options (path middlewareOrResponse : JsVal) : M Router :=
  use (VStr "options") path middlewareOrResponse ;; return_this.

Definition head (path middlewareOrResponse : JsVal) : M Router :=
  use (VStr "head") path middlewareOrResponse ;; return_this.

Definition get (path middlewareOrResponse : JsVal) : M Router :=
  use (VStr "get") path middlewareOrResponse ;; return_this.

Definition post (path middlewareOrResponse : JsVal) : M Router :=
  use (VStr "post") path middlewareOrResponse ;; return_this.

Definition put (path middlewareOrResponse : JsVal) : M Router :=
  use (VStr "put") path middlewareOrResponse ;; return_this.

Definition patch (path middlewareOrResponse : JsVal) : M Router :=
  use (VStr "patch") path middlewareOrResponse ;; return_this.

Definition delete (path middlewareOrResponse : JsVal) : M Router :=
  use (VStr "delete") path middlewareOrResponse ;; return_this.

(** The default value of the [options] parameter. *)
Definition default_options : Obj := {[ "redirect" := VStr "follow" ]}.

(** [options.redirect && isRedirect(normalisedResponse)] *)
Definition loop_condition (options normalisedResponse : Obj) : M bool :=
  if truthy (get_prop options "redirect")
  then pure_call (isRedirect normalisedResponse)
  else ret false.

(** [{url: normalisedRequest.url, redirected: false, ...normalisedResponse}] *)
Definition route_result (normalisedRequest normalisedResponse : Obj) : Obj :=
  spread_over normalisedResponse
    {[ "url" := get_prop normalisedRequest "url";
       "redirected" := VBool false ]}.

(** One pass of the loop of [routeSync]: the body of its [do ... while]. *)
Definition routeSync_pass (normalisedRequest normalisedContext : Obj) : M Obj :=
  emitBeforeEvent normalisedRequest normalisedContext ;;
  chain <- this_middleware ;;
  normalisedResponse <-
    world_call (routeSync normalisedRequest normalisedContext chain) ;;
  emitAfterEvent normalisedRequest normalisedResponse normalisedContext ;;
  ret normalisedResponse.

(** The [try] block of [routeSync]; [fuel] bounds the passes of the loop. *)
Definition routeSync_try (fuel : nat) (options : Obj)
    (normalisedRequest normalisedContext : Obj) : M Obj :=
  normalisedResponse <-
    do_while fuel (routeSync_pass normalisedRequest normalisedContext)
      (loop_condition options) ;;
  ret (route_result normalisedRequest normalisedResponse).

(** The [catch] block of [routeSync] and of [routeAsync]. *)
Definition route_catch (normalisedRequest normalisedContext : Obj)
    (error : JsVal) : M Obj :=
  emitErrorEvent normalisedRequest error normalisedContext ;;
  throw error.

Definition routeSync (fuel : nat) (request : Obj) (options : option Obj)
  : M Obj :=
  let options := default default_options options in
  normalisedRequest <- pure_call (normaliseRequest request) ;;
  normalisedContext <-
    pure_call (normaliseContext {| execution := Synchronous |}) ;;
  try_catch
    (routeSync_try fuel options normalisedRequest normalisedContext)
    (route_catch normalisedRequest normalisedContext).

(** [await routeAsync(request, context, middleware)]: the promise of the
    chain, awaited. *)
Definition await_routeAsync (normalisedRequest normalisedContext : Obj)
    (chain : list Fn) : World -> World * Completion Obj :=
  fun w =>
    let '(w', p) := routeAsync normalisedRequest normalisedContext chain w in
    (w', await p).

(** One pass of the loop of [routeAsync]. *)
Definition routeAsync_pass (normalisedRequest normalisedContext : Obj)
  : M Obj :=
  emitBeforeEvent normalisedRequest normalisedContext ;;
  chain <- this_middleware ;;
  normalisedResponse <-
    world_call (await_routeAsync normalisedRequest normalisedContext chain) ;;
  emitAfterEvent normalisedRequest normalisedResponse normalisedContext ;;
  ret normalisedResponse.

(** The [try] block of [routeAsync]. *)
Definition routeAsync_try (fuel : nat) (options : Obj)
    (normalisedRequest normalisedContext : Obj) : M Obj :=
  normalisedResponse <-
    do_while fuel (routeAsync_pass normalisedRequest normalisedContext)
      (loop_condition options) ;;
  ret (route_result normalisedRequest normalisedResponse).

(** The body of the [async] function [routeAsync]. *)
Definition routeAsync_body (fuel : nat) (request : Obj) (options : option Obj)
  : M Obj :=
  let options := default default_options options in
  normalisedRequest <- pure_call (normaliseRequest request) ;;
  normalisedContext <-
    pure_call (normaliseContext {| execution := Asynchronous |}) ;;
  try_catch
    (routeAsync_try fuel options normalisedRequest normalisedContext)
    (route_catch normalisedRequest normalisedContext).

(** [routeAsync] returns the promise of its body: an exception of the body
    is a rejection. *)
Definition routeAsync (fuel : nat) (request : Obj) (options : option Obj)
  : State -> State * Promise Obj :=
  fun s =>
    let '(s', c) := routeAsync_body fuel request options s in (s', async c).

End WithCollaborators.
End Router.

(** ** Sequences of calls on one router *)

Inductive Verb : Type :=
| All | Options | Head | Get | Post | Put | Patch | Delete.

(** The method pattern a wrapper passes to [use]. *)
Definition method_pattern (verb : Verb) : string :=
  match verb with
  | All => "*"
  | Options => "options"
  | Head => "head"
  | Get => "get"
  | Post => "post"
  | Put => "put"
  | Patch => "patch"
  | Delete => "delete"
  end.

Inductive Call : Type :=
| CallOn (type : EventType) (listener : Fn)
| CallOff (type : EventType) (listener : Fn)
| CallUse (methodOrMiddleware path middlewareOrResponse : JsVal)
| CallVerb (verb : Verb) (path middlewareOrResponse : JsVal)
| CallRouteSync (request : Obj) (options : option Obj)
| CallRouteAsync (request : Obj) (options : option Obj).

Section Calls.
Context `{C : Collaborators}.

Definition wrapper (verb : Verb) : JsVal -> JsVal -> M Router :=
  match verb with
  | All => Router.all
  | Options => Router.options
  | Head => Router.head
  | Get => Router.get
  | Post => Router.post
  | Put => Router.put
  | Patch => Router.patch
  | Delete => Router.delete
  end.

(** A call whose value is dropped. *)
Definition drop_value {A} (c : Completion A) : Completion unit :=
  match c with
  | Normal _ => Normal tt
  | Throw e => Throw e
  | Diverge => Diverge
  end.

(** One call made by the user of the router; the promise of [routeAsync]
    is awaited. *)
Definition call (fuel : nat) (c : Call) : M unit :=
  fun s =>
    match c with
    | CallOn type listener =>
        let '(s', r) := Router.on type listener s in (s', drop_value r)
    | CallOff type listener =>
        let '(s', r) := Router.off type listener s in (s', drop_value r)
    | CallUse a b c =>
        let '(s', r) := Router.use a b c s in (s', drop_value r)
    | CallVerb verb path handler =>
        let '(s', r) := wrapper verb path handler s in (s', drop_value r)
    | CallRouteSync request options =>
        let '(s', r) := Router.routeSync fuel request options s in
        (s', drop_value r)
    | CallRouteAsync request options =>
        let '(s', p) := Router.routeAsync fuel request options s in
        (s', drop_value (await p))
    end.

(** The calls in order.  A caller may catch an exception and go on; after
    a call that does not complete nothing more happens. *)
Fixpoint run (fuel : nat) (calls : list Call) (s : State) : State :=
  match calls with
  | [] => s
  | c :: rest =>
      match call fuel c s with
      | (s', Diverge) => s'
      | (s', _) => run fuel rest s'
      end
  end.

(** The state around a router that was just constructed. *)
Definition new_state (w : World) : State :=
  {| router := Router.constructor; world := w; emitted := [];
     delivered := [] |}.

(** The events a run from [s] to [s'] has emitted. *)
Definition new_events (s s' : State) : list Event :=
  drop (length (emitted s)) (emitted s').

Definition count_events (type : EventType) (evs : list Event) : nat :=
  length (filter (fun ev => event_type ev = type) evs).

(** The payloads a listener was called with, in order. *)
Definition deliveries_to (f : Fn) (ds : list (Fn * Event)) : list Event :=
  (filter (fun d => d.1 = f) ds).*2.

(** A registration call. *)
Definition is_registration (c : Call) : Prop :=
  match c with
  | CallUse _ _ _ | CallVerb _ _ _ => True
  | _ => False
  end.

(** The middleware a registration call adds when it returns. *)
Definition registers (c : Call) (m : Fn) : Prop :=
  match c with
  | CallUse (VFun f) _ _ => m = f
  | CallUse method path handler =>
      createMiddleware method path handler = Normal m
  | CallVerb verb path handler =>
      createMiddleware (VStr (method_pattern verb)) path handler = Normal m
  | _ => False
  end.

(** Every call of the sequence returns. *)
Fixpoint all_return (fuel : nat) (calls : list Call) (s : State) : Prop :=
  match calls with
  | [] => True
  | c :: rest =>
      (call fuel c s).2 = Normal tt /\ all_return fuel rest (call fuel c s).1
  end.

End Calls.

(** ** The dispatch state machine of the specification *)

Section SpecMachine.
Context `{C : Collaborators}.

(** The states DISPATCH, LOOP-DECISION and DONE of the specification, over
    the chain executor of the entry point: emit [before], run the chain,
    emit [after]; go round again iff the [redirect] option is truthy and
    the response is a redirect; otherwise the result is the final response
    with [url] and [redirected]. *)
Fixpoint spec_dispatch_loop
    (executor : Obj -> Obj -> list Fn -> World -> World * Completion Obj)
    (fuel : nat) (options request context : Obj) : M Obj :=
  match fuel with
  | O => diverge
  | S fuel' =>
      Emitter.emit "before" (BeforeEvent request context) ;;
      chain <- Router.this_middleware ;;
      response <- world_call (executor request context chain) ;;
      Emitter.emit "after" (AfterEvent request response context) ;;
      redirect <-
        (if truthy (get_prop options "redirect")
         then pure_call (isRedirect response) else ret false) ;;
      if redirect
      then spec_dispatch_loop executor fuel' options request context
      else ret (Router.route_result request response)
  end.

(** NORMALIZE, then the loop, with ERROR reached from any point of it: the
    [error] event is emitted and the exception raised again. *)
Definition spec_dispatch (tag : ExecutionContext)
    (executor : Obj -> Obj -> list Fn -> World -> World * Completion Obj)
    (fuel : nat) (request : Obj) (options : option Obj) : M Obj :=
  request' <- pure_call (normaliseRequest request) ;;
  context <- pure_call (normaliseContext {| execution := tag |}) ;;
  try_catch
    (spec_dispatch_loop executor fuel
       (default {[ "redirect" := VStr "follow" ]} options) request' context)
    (fun e =>
       Emitter.emit "error" (ErrorEvent request' e context) ;; throw e).

(** An event without its context, and a state whose histories are without
    contexts. *)
Definition erase_context (ev : Event) : Event :=
  match ev with
  | BeforeEvent request _ => BeforeEvent request ∅
  | AfterEvent request response _ => AfterEvent request response ∅
  | ErrorEvent request e _ => ErrorEvent request e ∅
  end.

Definition erase_contexts (s : State) : State :=
  {| router := router s; world := world s;
     emitted := erase_context <$> emitted s;
     delivered := prod_map id erase_context <$> delivered s |}.

(** Two computations that, from states that differ in the contexts of
    their histories only, end in such states with the same outcome. *)
Definition agree {A} (m1 m2 : M A) : Prop :=
  forall s1 s2,
    erase_contexts s1 = erase_contexts s2 ->
    erase_contexts (m1 s1).1 = erase_contexts (m2 s2).1 /\
    (m1 s1).2 = (m2 s2).2.

End SpecMachine.

(** ** A sample environment *)

Module Sample.

(** What the sample middleware answer: 1 answers 200, 2 throws, 3 answers
    a redirect, 4 answers 200 with fields named [redirected] and [url], 5
    answers a redirect to the first request and 200 afterwards; any other
    middleware passes. *)
Definition respond (m : Fn) (w : nat) : option (Completion Obj) :=
  match m with
  | 1 => Some (Normal {[ "status" := VNum 200; "body" := VStr "ok" ]})
  | 2 => Some (Throw (VError "Error" "boom"))
  | 3 => Some (Normal {[ "status" := VNum 301 ]})
  | 4 => Some (Normal {[ "status" := VNum 200; "redirected" := VBool true;
                         "url" := VStr "/elsewhere" ]})
  | 5 => Some (Normal {[ "status" := VNum (if w is O then 301 else 200) ]})
  | _ => None
  end.

Fixpoint run_chain (chain : list Fn) (w : nat) : Completion Obj :=
  match chain with
  | [] => Normal {[ "status" := VNum 404 ]}
  | m :: rest =>
      match respond m w with
      | Some c => c
      | None => run_chain rest w
      end
  end.

(** The world counts the runs of the chain; listener 11 throws, every other
    listener returns. *)
Definition collaborators : Collaborators :=
  {| World := nat;
     defaultErrorListener := 0;
     createMiddleware := fun _ _ handler =>
       match handler with
       | VFun f => Normal (100 + f)
       | _ => Normal 200
       end;
     normaliseRequest := fun request =>
       match request !! "url" with
       | Some (VNum _) => Throw (VError "TypeError" "Invalid URL")
       | _ => Normal (request ∪ {[ "method" := VStr "GET"; "url" := VStr "/" ]})
       end;
     normaliseContext := fun partial =>
       Normal {[ "execution" :=
                   VStr (match execution partial with
                         | Synchronous => "sync"
                         | Asynchronous => "async"
                         end) ]};
     routeSync := fun _ _ chain w => (S w, run_chain chain w);
     routeAsync := fun _ _ chain w => (S w, async (run_chain chain w));
     isRedirect := fun response =>
       match response !! "status" with
       | Some (VNum n) => Normal (bool_decide (300 ≤ n < 400)%Z)
       | _ => Normal false
       end;
     call_listener := fun f _ w =>
       (w, if decide (f = 11) then Throw (VError "Error" "listener failed")
           else Normal tt) |}.

(** A new router of the sample environment with the given chain. *)
Definition state_with (chain : list Fn) : @State collaborators :=
  {| router := {| emitter := emitter (@Router.constructor collaborators);
                  middleware := chain |};
     world := (0 : @World collaborators); emitted := []; delivered := [] |}.

(** A request for [/x], and one that [normaliseRequest] refuses. *)
Definition request : Obj := {[ "method" := VStr "get"; "url" := VStr "/x" ]}.

Definition bad_request : Obj := {[ "url" := VNum 1 ]}.

(** The contexts [normaliseContext] builds, and the answers of the
    middleware 1 and 4. *)
Definition context (tag : ExecutionContext) : Obj :=
  {[ "execution" :=
       VStr (match tag with
             | Synchronous => "sync"
             | Asynchronous => "async"
             end) ]}.

Definition ok_response : Obj :=
  {[ "status" := VNum 200; "body" := VStr "ok" ]}.

Definition odd_response : Obj :=
  {[ "status" := VNum 200; "redirected" := VBool true;
     "url" := VStr "/elsewhere" ]}.

(** The options [{}] and [{redirect: false}], and the redirect the
    middleware 3 answers. *)
Definition empty_options : Obj := ∅.

Definition no_follow : Obj := {[ "redirect" := VBool false ]}.

Definition redirect_response : Obj := {[ "status" := VNum 301 ]}.

(** The exceptions of the middleware 2 and of the listener 11. *)
Definition boom : JsVal := VError "Error" "boom".

Definition listener_failed : JsVal := VError "Error" "listener failed".

End Sample.

(** ** A second sample environment, whose collaborators fail *)

Module Faulty.

(** [createMiddleware] refuses the path ["("], the chain answers every
    request with the response [{}], and [isRedirect] throws on a response
    without a status.  The listener 11 throws, every other listener
    returns. *)
Definition collaborators : Collaborators :=
  {| World := nat;
     defaultErrorListener := 0;
     createMiddleware := fun _ path _ =>
       match path with
       | VStr "(" => Throw (VError "SyntaxError" "Invalid pattern")
       | _ => Normal 100
       end;
     normaliseRequest := fun request => Normal request;
     normaliseContext := fun _ => Normal ∅;
     routeSync := fun _ _ _ w => (S w, Normal ∅);
     routeAsync := fun _ _ _ w => (S w, Fulfilled ∅);
     isRedirect := fun response =>
       match response !! "status" with
       | Some (VNum n) => Normal (bool_decide (300 ≤ n < 400)%Z)
       | _ => Throw (VError "TypeError" "status")
       end;
     call_listener := fun f _ w =>
       (w, if decide (f = 11) then Throw (VError "Error" "listener failed")
           else Normal tt) |}.

Definition state : @State collaborators :=
  {| router := @Router.constructor collaborators;
     world := (0 : @World collaborators); emitted := []; delivered := [] |}.

Definition no_context : Obj := ∅.

Definition no_response : Obj := ∅.

End Faulty.

(** ** A third sample environment, with a listener that reads the context *)

Module TagAware.

(** The context an event carries. *)
Definition event_context (ev : Event) : Obj :=
  match ev with
  | BeforeEvent _ context => context
  | AfterEvent _ _ context => context
  | ErrorEvent _ _ context => context
  end.

Definition answer : Obj := {[ "status" := VNum 200 ]}.

Definition refused : JsVal := VError "Error" "asynchronous".

(** The two chain executors answer every request alike, with 200.  The
    listener 12 throws when the context of its event says [execution:
    'async'] and returns otherwise; every other listener returns. *)
Definition collaborators : Collaborators :=
  {| World := nat;
     defaultErrorListener := 0;
     createMiddleware := fun _ _ _ => Normal 100;
     normaliseRequest := fun request => Normal request;
     normaliseContext := fun partial =>
       Normal {[ "execution" :=
                   VStr (match execution partial with
                         | Synchronous => "sync"
                         | Asynchronous => "async"
                         end) ]};
     routeSync := fun _ _ _ w => (S w, Normal answer);
     routeAsync := fun _ _ _ w => (S w, Fulfilled answer);
     isRedirect := fun _ => Normal false;
     call_listener := fun f ev w =>
       (w, if decide (f = 12)
           then match event_context ev !! "execution" with
                | Some (VStr "async") => Throw refused
                | _ => Normal tt
                end
           else Normal tt) |}.

(** A new router of this environment. *)
Definition state : @State collaborators :=
  {| router := @Router.constructor collaborators;
     world := (0 : @World collaborators); emitted := []; delivered := [] |}.

End TagAware.

(** ** The two dispatch entry points, side by side *)

Inductive EntryPoint : Type := ViaRouteSync | ViaRouteAsync.

Section EntryPoints.
Context `{C : Collaborators}.

Definition execution_tag (entry : EntryPoint) : ExecutionContext :=
  match entry with
  | ViaRouteSync => Synchronous
  | ViaRouteAsync => Asynchronous
  end.

(** One pass of the loop of the entry point, and its [try] block. *)
Definition pass (entry : EntryPoint) : Obj -> Obj -> M Obj :=
  match entry with
  | ViaRouteSync => Router.routeSync_pass
  | ViaRouteAsync => Router.routeAsync_pass
  end.

Definition try_block (entry : EntryPoint) : nat -> Obj -> Obj -> Obj -> M Obj :=
  match entry with
  | ViaRouteSync => Router.routeSync_try
  | ViaRouteAsync => Router.routeAsync_try
  end.

(** What the caller of the entry point sees: the value or the exception of
    [routeSync], the value or the rejection of the promise of
    [routeAsync]. *)
Definition dispatch (entry : EntryPoint) (fuel : nat) (request : Obj)
    (options : option Obj) : M Obj :=
  match entry with
  | ViaRouteSync => Router.routeSync fuel request options
  | ViaRouteAsync =>
      fun s =>
        let '(s', p) := Router.routeAsync fuel request options s in
        (s', await p)
  end.

(** The chain executor the entry point calls, with its promise awaited. *)
Definition chain_executor (entry : EntryPoint)
  : Obj -> Obj -> list Fn -> World -> World * Completion Obj :=
  match entry with
  | ViaRouteSync => routeSync
  | ViaRouteAsync => Router.await_routeAsync
  end.

(** The run from [s] to [s'] has only added events, all of them of an
    event type that satisfies [P], to the history. *)
Definition emits_only (P : EventType -> Prop) (s s' : State) : Prop :=
  exists evs,
    emitted s' = emitted s ++ evs /\ Forall (fun ev => P (event_type ev)) evs.

(** The handlers subscribed to an event type. *)
Definition listeners (type : EventType) (s : State) : list Fn :=
  Emitter.handlers_of (emitter (router s)) (type_name type).

(** How often the default listener is subscribed to an event type. *)
Definition default_count (type : EventType) (s : State) : nat :=
  length (filter (fun h => h = defaultErrorListener) (listeners type s)).

(** A call that does not pass the default listener itself to [on] or
    [off]. *)
Definition user_call (c : Call) : Prop :=
  match c with
  | CallOn _ listener | CallOff _ listener => listener <> defaultErrorListener
  | _ => True
  end.

(** A call [on('error', ...)]. *)
Definition subscribes_error (c : Call) : Prop :=
  match c with
  | CallOn Error _ => True
  | _ => False
  end.

(** The [error] events of a history. *)
Definition error_events (evs : list Event) : list Event :=
  filter (fun ev => event_type ev = Error) evs.

(** The default listener is the only listener of [error] events, it
    listens to nothing else, and was called with every [error] event
    emitted so far. *)
Definition default_in_charge (s : State) : Prop :=
  listeners Error s = [defaultErrorListener] /\
  default_count Before s = 0 /\ default_count After s = 0 /\
  error_events (emitted s) = deliveries_to defaultErrorListener (delivered s).

(** The default listener is subscribed to [error] at most once and to
    nothing else. *)
Definition default_at_most_once (s : State) : Prop :=
  default_count Before s = 0 /\ default_count After s = 0 /\
  default_count Error s <= 1.

(** The default listener is subscribed to nothing, and [history] is what
    it was called with so far. *)
Definition default_retired (history : list Event) (s : State) : Prop :=
  (forall type, default_count type s = 0) /\
  deliveries_to defaultErrorListener (delivered s) = history.

(** What the caller sees after the [catch] block, whose emission of the
    [error] event completed with [c]. *)
Definition after_catch {A} (e : JsVal) (c : Completion unit) : Completion A :=
  match c with
  | Normal _ => Throw e
  | Throw e' => Throw e'
  | Diverge => Diverge
  end.

(** A relation between the state before and the state after that holds
    for every step of a computation. *)
Definition respects {A} (R : State -> State -> Prop) (m : M A) : Prop :=
  forall s, R s (m s).1.

(** How often the listener [f] is subscribed to an event type. *)
Definition subscriptions (f : Fn) (type : EventType) (s : State) : nat :=
  length (filter (fun h => h = f) (listeners type s)).

(** The events of passes that were answered with the given responses. *)
Fixpoint passes (request context : Obj) (responses : list Obj) : list Event :=
  match responses with
  | [] => []
  | response :: rest =>
      BeforeEvent request context :: AfterEvent request response context
      :: passes request context rest
  end.

End EntryPoints.

(** * Properties *)

(** ** Computations, step by step *)

Section Steps.
Context `{C : Collaborators}.

Lemma bind_normal {A B} (m : M A) (k : A -> M B) s s' a :
  m s = (s', Normal a) -> bind m k s = k a s'.
Proof. intros Hm. unfold bind. by rewrite Hm. Qed.

Lemma await_async {A} (c : Completion A) : await (async c) = c.
Proof. by destruct c. Qed.

Section Respects.
Variable R : State -> State -> Prop.
Hypothesis R_pre : PreOrder R.

Lemma respects_ret {A} (a : A) : respects R (ret a).
Proof. intros s. simpl. reflexivity. Qed.

Lemma respects_throw {A} e : respects R (@throw _ A e).
Proof. intros s. simpl. reflexivity. Qed.

Lemma respects_diverge {A} : respects R (@diverge _ A).
Proof. intros s. simpl. reflexivity. Qed.

Lemma respects_pure_call {A} (c : Completion A) : respects R (pure_call c).
Proof. intros s. simpl. reflexivity. Qed.

Lemma respects_bind {A B} (m : M A) (k : A -> M B) :
  respects R m -> (forall a, respects R (k a)) -> respects R (bind m k).
Proof.
  intros Hm Hk s. unfold bind. specialize (Hm s).
  destruct (m s) as [s' [a|e|]]; simpl in *; [|done..].
  etrans; [exact Hm | apply Hk].
Qed.

Lemma respects_try_catch {A} (m : M A) (handler : JsVal -> M A) :
  respects R m -> (forall e, respects R (handler e)) ->
  respects R (try_catch m handler).
Proof.
  intros Hm Hh s. unfold try_catch. specialize (Hm s).
  destruct (m s) as [s' [a|e|]]; simpl in *; [done| |done].
  etrans; [exact Hm | apply Hh].
Qed.

Lemma respects_do_while {A} fuel (body : M A) (cond : A -> M bool) :
  respects R body -> (forall a, respects R (cond a)) ->
  respects R (do_while fuel body cond).
Proof.
  intros Hb Hc. induction fuel as [|fuel IH]; simpl.
  - apply respects_diverge.
  - apply respects_bind; [done|]. intros a.
    apply respects_bind; [done|]. intros [|]; [done|apply respects_ret].
Qed.

Lemma respects_world_call {A} (f : World -> World * Completion A) :
  (forall w s, R s (set_world w s)) -> respects R (world_call f).
Proof.
  intros Hw s. unfold world_call. destruct (f (world s)) as [w c]. apply Hw.
Qed.

End Respects.

End Steps.

(** ** The event bus *)

Section Emission.
Context `{C : Collaborators}.

Lemma invoke_all_spec handlers ev s :
  router (Emitter.invoke_all handlers ev s).1 = router s /\
  emitted (Emitter.invoke_all handlers ev s).1 = emitted s /\
  exists k,
    delivered (Emitter.invoke_all handlers ev s).1
    = delivered s ++ ((fun h => (h, ev)) <$> take k handlers) /\
    (handlers <> [] -> 0 < k).
Proof.
  revert s. induction handlers as [|h rest IH]; intros s; simpl.
  - repeat split. exists 0. rewrite app_nil_r. done.
  - unfold bind, Emitter.invoke, world_call.
    destruct (call_listener h ev (world (log_delivered h ev s))) as [w c].
    destruct c as [[]|e|]; simpl.
    + destruct (IH (set_world w (log_delivered h ev s))) as (Hr & He & k & Hd & _).
      rewrite Hr, He. repeat split. exists (S k). rewrite Hd. simpl.
      rewrite <- app_assoc. split; [done|lia].
    + repeat split. exists 1. split; [done|lia].
    + repeat split. exists 1. split; [done|lia].
Qed.

Lemma invoke_all_quiet handlers ev s :
  (forall f w, f ∈ handlers -> (call_listener f ev w).2 = Normal tt) ->
  (Emitter.invoke_all handlers ev s).2 = Normal tt.
Proof.
  revert s. induction handlers as [|h rest IH]; intros s Hq; simpl; [done|].
  unfold bind, Emitter.invoke, world_call.
  pose proof (Hq h (world (log_delivered h ev s)) ltac:(left)) as Hh.
  destruct (call_listener h ev (world (log_delivered h ev s))) as [w c].
  simpl in Hh. subst c. apply IH. intros f w' Hf. apply Hq. by right.
Qed.

Lemma emit_router type ev s : router (Emitter.emit type ev s).1 = router s.
Proof. unfold Emitter.emit. by destruct (invoke_all_spec
  (Emitter.handlers_of (emitter (router s)) type) ev (log_emitted ev s))
  as (-> & _). Qed.

Lemma emit_emitted type ev s :
  emitted (Emitter.emit type ev s).1 = emitted s ++ [ev].
Proof. unfold Emitter.emit. by destruct (invoke_all_spec
  (Emitter.handlers_of (emitter (router s)) type) ev (log_emitted ev s))
  as (_ & -> & _). Qed.

Lemma emit_delivered type ev s :
  exists k,
    delivered (Emitter.emit type ev s).1
    = delivered s
      ++ ((fun h => (h, ev))
            <$> take k (Emitter.handlers_of (emitter (router s)) type)) /\
    (Emitter.handlers_of (emitter (router s)) type <> [] -> 0 < k).
Proof. unfold Emitter.emit. by destruct (invoke_all_spec
  (Emitter.handlers_of (emitter (router s)) type) ev (log_emitted ev s))
  as (_ & _ & Hk). Qed.

Lemma emit_quiet type ev s :
  (forall f w, f ∈ Emitter.handlers_of (emitter (router s)) type ->
               (call_listener f ev w).2 = Normal tt) ->
  (Emitter.emit type ev s).2 = Normal tt.
Proof. intros Hq. unfold Emitter.emit. by apply invoke_all_quiet. Qed.

Lemma handlers_of_on type handler all type' :
  Emitter.handlers_of (Emitter.on type handler all) type'
  = if decide (type = type')
    then Emitter.handlers_of all type ++ [handler]
    else Emitter.handlers_of all type'.
Proof.
  unfold Emitter.on, Emitter.handlers_of at 1. rewrite lookup_insert.
  by case_decide; subst.
Qed.

Lemma handlers_of_off type handler all type' :
  Emitter.handlers_of (Emitter.off type handler all) type'
  = if decide (type = type')
    then Emitter.remove_first handler (Emitter.handlers_of all type)
    else Emitter.handlers_of all type'.
Proof.
  unfold Emitter.off, Emitter.handlers_of.
  destruct (all !! type) as [hs|] eqn:Hall.
  - rewrite lookup_insert. by case_decide; subst.
  - case_decide; subst; [by rewrite Hall|done].
Qed.

Lemma filter_remove_first_ne (f handler : Fn) handlers :
  handler <> f ->
  filter (fun h => h = f) (Emitter.remove_first handler handlers)
  = filter (fun h => h = f) handlers.
Proof.
  intros Hne. induction handlers as [|h rest IH]; simpl; [done|].
  case_decide as Hh.
  - subst h. rewrite filter_cons_False; done.
  - rewrite !filter_cons. by rewrite IH.
Qed.

Lemma filter_remove_first_eq (f : Fn) handlers :
  length (filter (fun h => h = f) (Emitter.remove_first f handlers))
  = pred (length (filter (fun h => h = f) handlers)).
Proof.
  induction handlers as [|h rest IH]; simpl; [done|].
  case_decide as Hh.
  - subst h. rewrite filter_cons_True; done.
  - rewrite !filter_cons_False; done.
Qed.

End Emission.

(** ** The dispatch loop *)

Section Dispatch.
Context `{C : Collaborators}.

Lemma pass_unfold entry request context :
  pass entry request context
  = (Router.emitBeforeEvent request context ;;
     chain <- Router.this_middleware ;;
     response <- world_call (chain_executor entry request context chain) ;;
     Router.emitAfterEvent request response context ;;
     ret response).
Proof. by destruct entry. Qed.

Lemma try_block_unfold entry fuel options request context :
  try_block entry fuel options request context
  = (response <-
       do_while fuel (pass entry request context)
         (Router.loop_condition options) ;;
     ret (Router.route_result request response)).
Proof. by destruct entry. Qed.

Lemma dispatch_unfold entry fuel request options s :
  dispatch entry fuel request options s
  = (request' <- pure_call (normaliseRequest request) ;;
     context <-
       pure_call (normaliseContext {| execution := execution_tag entry |}) ;;
     try_catch
       (try_block entry fuel (default Router.default_options options)
          request' context)
       (Router.route_catch request' context)) s.
Proof.
  destruct entry; [done|].
  change (dispatch ViaRouteAsync fuel request options s
          = Router.routeAsync_body fuel request options s).
  unfold dispatch, Router.routeAsync.
  destruct (Router.routeAsync_body fuel request options s) as [s' c].
  by rewrite await_async.
Qed.

Lemma dispatch_normalised entry fuel request options s request' context :
  normaliseRequest request = Normal request' ->
  normaliseContext {| execution := execution_tag entry |} = Normal context ->
  dispatch entry fuel request options s
  = try_catch
      (try_block entry fuel (default Router.default_options options)
         request' context)
      (Router.route_catch request' context) s.
Proof.
  intros Hreq Hctx. rewrite dispatch_unfold. unfold bind, pure_call.
  by rewrite Hreq, Hctx.
Qed.

(** *** Relations every step of a dispatch respects *)

Section DispatchRespects.
Variable R : State -> State -> Prop.
Hypothesis R_pre : PreOrder R.
Hypothesis R_world : forall w s, R s (set_world w s).

Lemma respects_loop_condition options response :
  respects R (Router.loop_condition options response).
Proof.
  unfold Router.loop_condition.
  destruct (truthy _); [by apply respects_pure_call|by apply respects_ret].
Qed.

Lemma respects_pass entry request context :
  (forall ev, event_type ev <> Error ->
              respects R (Emitter.emit (type_name (event_type ev)) ev)) ->
  respects R (pass entry request context).
Proof.
  intros Hemit. rewrite pass_unfold.
  apply respects_bind; [done|by apply (Hemit (BeforeEvent _ _))|]. intros _.
  apply respects_bind; [done|intros s; simpl; reflexivity|]. intros chain.
  apply respects_bind; [done|by apply respects_world_call|]. intros response.
  apply respects_bind; [done|by apply (Hemit (AfterEvent _ _ _))|]. intros _.
  by apply respects_ret.
Qed.

Lemma respects_try_block entry fuel options request context :
  (forall ev, event_type ev <> Error ->
              respects R (Emitter.emit (type_name (event_type ev)) ev)) ->
  respects R (try_block entry fuel options request context).
Proof.
  intros Hemit. rewrite try_block_unfold.
  apply respects_bind; [done| |intros; by apply respects_ret].
  apply respects_do_while; [done|by apply respects_pass|].
  intros; apply respects_loop_condition.
Qed.

Lemma respects_route_catch request context e :
  (forall ev, respects R (Emitter.emit (type_name (event_type ev)) ev)) ->
  respects R (Router.route_catch request context e).
Proof.
  intros Hemit. unfold Router.route_catch.
  apply respects_bind; [done|by apply (Hemit (ErrorEvent _ _ _))|].
  intros; by apply respects_throw.
Qed.

Lemma respects_dispatch entry fuel request options :
  (forall ev, respects R (Emitter.emit (type_name (event_type ev)) ev)) ->
  respects R (dispatch entry fuel request options).
Proof.
  intros Hemit s. rewrite dispatch_unfold. revert s.
  apply respects_bind; [done|by apply respects_pure_call|]. intros request'.
  apply respects_bind; [done|by apply respects_pure_call|]. intros context.
  apply respects_try_catch; [done| |].
  - apply respects_try_block. intros ev _. apply Hemit.
  - intros e. by apply respects_route_catch.
Qed.

End DispatchRespects.

End Dispatch.

(** ** Registration *)

Section Registration.
Context `{C : Collaborators}.

Lemma use_function f path handler s :
  Router.use (VFun f) path handler s
  = ((Router.middleware_push f s).1,
     Normal (router (Router.middleware_push f s).1)).
Proof. done. Qed.

Lemma use_route method path handler s :
  is_function method = false ->
  truthy path = true -> truthy handler = true ->
  Router.use method path handler s
  = match createMiddleware method path handler with
    | Normal m =>
        ((Router.middleware_push m s).1,
         Normal (router (Router.middleware_push m s).1))
    | Throw e => (s, Throw e)
    | Diverge => (s, Diverge)
    end.
Proof.
  intros Hf Hp Hh. unfold Router.use, bind, pure_call.
  destruct method; try discriminate; rewrite Hp, Hh; simpl;
    by destruct (createMiddleware _ _ _).
Qed.

Lemma use_invalid method path handler s :
  is_function method = false ->
  truthy path && truthy handler = false ->
  Router.use method path handler s
  = (s, Throw (VError "TypeError" "Invalid arguments.")).
Proof.
  intros Hf Hp. unfold Router.use, bind.
  destruct method; try discriminate; by rewrite Hp.
Qed.

(** The three outcomes of [use], by cases on its arguments. *)
Lemma use_cases method path handler s :
  (exists m, registers (CallUse method path handler) m /\
     Router.use method path handler s
     = ((Router.middleware_push m s).1,
        Normal (router (Router.middleware_push m s).1))) \/
  (exists c, Router.use method path handler s = (s, c) /\
             forall r, c <> Normal r).
Proof.
  destruct (is_function method) eqn:Hf.
  - destruct method; try discriminate. left. exists f. by rewrite use_function.
  - destruct (truthy path && truthy handler) eqn:Hp.
    + apply andb_true_iff in Hp as [Hp Hh].
      rewrite (use_route _ _ _ _ Hf Hp Hh).
      destruct (createMiddleware method path handler) as [m|e|] eqn:Hm.
      * left. exists m. split; [|done]. by destruct method.
      * right. by eexists.
      * right. by eexists.
    + right. rewrite (use_invalid _ _ _ _ Hf Hp). by eexists.
Qed.

Lemma use_return_this method path handler s :
  (Router.use method path handler ;; Router.return_this) s
  = Router.use method path handler s.
Proof.
  unfold bind at 1.
  destruct (use_cases method path handler s) as [(m & _ & ->)|(c & -> & Hc)];
    [done|].
  destruct c; [by destruct (Hc a)|done..].
Qed.

Lemma wrapper_use verb path handler s :
  wrapper verb path handler s
  = Router.use (VStr (method_pattern verb)) path handler s.
Proof. destruct verb; apply use_return_this. Qed.

(** A registration call that returns has added one middleware at the end;
    one that does not return has changed nothing. *)
Lemma registration_call fuel c s :
  is_registration c ->
  (exists m, registers c m /\ (call fuel c s).2 = Normal tt /\
     (call fuel c s).1 = (Router.middleware_push m s).1) \/
  ((call fuel c s).2 <> Normal tt /\ (call fuel c s).1 = s).
Proof.
  destruct c as [| |method path handler|verb path handler| |]; try done;
    intros _; simpl.
  - destruct (use_cases method path handler s) as [(m & Hm & ->)|(c & -> & Hc)].
    + left. by exists m.
    + right. split; [|done]. destruct c; [by destruct (Hc a)|done..].
  - rewrite wrapper_use.
    destruct (use_cases (VStr (method_pattern verb)) path handler s)
      as [(m & Hm & ->)|(c & -> & Hc)].
    + left. by exists m.
    + right. split; [|done]. destruct c; [by destruct (Hc a)|done..].
Qed.

End Registration.

(** ** Who listens to [error] *)

Section Listeners.
Context `{C : Collaborators}.

Lemma invariant_preorder (I : State -> Prop) :
  PreOrder (fun s s' => I s -> I s').
Proof. split; [by intros s|]. intros s1 s2 s3 H12 H23 H1. auto. Qed.

Lemma deliveries_to_app f (ds ds' : list (Fn * Event)) :
  deliveries_to f (ds ++ ds') = deliveries_to f ds ++ deliveries_to f ds'.
Proof. unfold deliveries_to. by rewrite filter_app, fmap_app. Qed.

Lemma deliveries_to_absent f ev (handlers : list Fn) :
  filter (fun h => h = f) handlers = [] ->
  deliveries_to f ((fun h => (h, ev)) <$> handlers) = [].
Proof.
  unfold deliveries_to. induction handlers as [|h rest IH]; [done|].
  rewrite filter_cons. case_decide; [done|]. intros Hrest.
  rewrite fmap_cons, filter_cons_False by done. auto.
Qed.

Lemma filter_take_nil (f : Fn) k (handlers : list Fn) :
  filter (fun h => h = f) handlers = [] ->
  filter (fun h => h = f) (take k handlers) = [].
Proof.
  revert k. induction handlers as [|h rest IH]; intros k; [by destruct k|].
  rewrite filter_cons. case_decide; [done|]. intros Hrest.
  destruct k; [done|]. simpl. rewrite filter_cons_False by done. auto.
Qed.

Lemma default_count_0 type s :
  default_count type s = 0 <->
  filter (fun h => h = defaultErrorListener) (listeners type s) = [].
Proof. unfold default_count. apply length_zero_iff_nil. Qed.

(** An emission the listener [f] does not listen to does not call it. *)
Lemma emit_deliveries_absent f type ev s :
  filter (fun h => h = f) (Emitter.handlers_of (emitter (router s)) type) = [] ->
  deliveries_to f (delivered (Emitter.emit type ev s).1)
  = deliveries_to f (delivered s).
Proof.
  intros Hf. destruct (emit_delivered type ev s) as (k & -> & _).
  rewrite deliveries_to_app, deliveries_to_absent, app_nil_r; [done|].
  by apply filter_take_nil.
Qed.

(** An emission whose only listener is [f] calls it once. *)
Lemma emit_deliveries_single f type ev s :
  Emitter.handlers_of (emitter (router s)) type = [f] ->
  deliveries_to f (delivered (Emitter.emit type ev s).1)
  = deliveries_to f (delivered s) ++ [ev].
Proof.
  intros Hf. destruct (emit_delivered type ev s) as (k & -> & Hk).
  rewrite Hf in *. destruct k as [|k]; [specialize (Hk ltac:(done)); lia|].
  rewrite deliveries_to_app. f_equal. unfold deliveries_to. simpl.
  rewrite take_nil. simpl. rewrite filter_cons_True by done. done.
Qed.

Lemma error_events_snoc evs ev :
  error_events (evs ++ [ev])
  = error_events evs ++ (if decide (event_type ev = Error) then [ev] else []).
Proof.
  unfold error_events. by rewrite filter_app.
Qed.

Lemma listeners_emit type type' ev s :
  listeners type (Emitter.emit type' ev s).1 = listeners type s.
Proof. unfold listeners. by rewrite emit_router. Qed.

Lemma default_count_emit type type' ev s :
  default_count type (Emitter.emit type' ev s).1 = default_count type s.
Proof. unfold default_count. by rewrite listeners_emit. Qed.

(** *** The three invariants and event emission *)

Lemma emit_default_in_charge ev :
  respects (fun s s' => default_in_charge s -> default_in_charge s')
    (Emitter.emit (type_name (event_type ev)) ev).
Proof.
  intros s (Herr & Hb & Ha & Hlog). unfold default_in_charge.
  rewrite listeners_emit, !default_count_emit. repeat split; try done.
  rewrite emit_emitted, error_events_snoc, Hlog.
  destruct (event_type ev) eqn:Hty; case_decide; try done.
  - rewrite app_nil_r. symmetry. apply emit_deliveries_absent.
    by apply (default_count_0 Before).
  - rewrite app_nil_r. symmetry. apply emit_deliveries_absent.
    by apply (default_count_0 After).
  - symmetry. by apply emit_deliveries_single.
Qed.

Lemma emit_default_retired history ev :
  respects
    (fun s s' => default_retired history s -> default_retired history s')
    (Emitter.emit (type_name (event_type ev)) ev).
Proof.
  intros s (Hgone & Hlog). split.
  - intros type. by rewrite default_count_emit.
  - rewrite <- Hlog. apply emit_deliveries_absent.
    apply (default_count_0 (event_type ev)), Hgone.
Qed.

Lemma emit_default_at_most_once ev :
  respects (fun s s' => default_at_most_once s -> default_at_most_once s')
    (Emitter.emit (type_name (event_type ev)) ev).
Proof.
  intros s H. unfold default_at_most_once. by rewrite !default_count_emit.
Qed.

End Listeners.

(** ** Calls and the listeners *)

Section CallsAndListeners.
Context `{C : Collaborators}.

Lemma on_state type listener s :
  emitted (Router.on type listener s).1 = emitted s /\
  delivered (Router.on type listener s).1 = delivered s /\
  middleware (router (Router.on type listener s).1) = middleware (router s) /\
  forall type',
    listeners type' (Router.on type listener s).1
    = if decide (type = Error)
      then if decide (type' = Error)
           then Emitter.remove_first defaultErrorListener
                  (listeners Error s ++ [listener])
           else listeners type' s
      else if decide (type = type')
           then listeners type s ++ [listener]
           else listeners type' s.
Proof.
  repeat split; try by destruct type.
  intros type'. unfold listeners.
  destruct type, type'; simpl;
    rewrite ?handlers_of_off, ?handlers_of_on; by repeat case_decide.
Qed.

Lemma off_state type listener s :
  emitted (Router.off type listener s).1 = emitted s /\
  delivered (Router.off type listener s).1 = delivered s /\
  middleware (router (Router.off type listener s).1) = middleware (router s) /\
  forall type',
    listeners type' (Router.off type listener s).1
    = if decide (type = type')
      then Emitter.remove_first listener (listeners type s)
      else listeners type' s.
Proof.
  repeat split. intros type'. unfold listeners.
  destruct type, type'; simpl; rewrite handlers_of_off; by repeat case_decide.
Qed.

Lemma call_on_state fuel type listener s :
  (call fuel (CallOn type listener) s).1 = (Router.on type listener s).1.
Proof. simpl. by destruct (Router.on type listener s). Qed.

Lemma call_off_state fuel type listener s :
  (call fuel (CallOff type listener) s).1 = (Router.off type listener s).1.
Proof. simpl. by destruct (Router.off type listener s). Qed.

Lemma call_route_state fuel c s :
  match c with
  | CallRouteSync request options =>
      (call fuel c s).1 = (dispatch ViaRouteSync fuel request options s).1
  | CallRouteAsync request options =>
      (call fuel c s).1 = (dispatch ViaRouteAsync fuel request options s).1
  | _ => True
  end.
Proof.
  destruct c as [| | | |request options|request options]; try done; simpl.
  - by destruct (Router.routeSync fuel request options s).
  - by destruct (Router.routeAsync fuel request options s).
Qed.

Lemma count_snoc_ne (f listener : Fn) handlers :
  listener <> f ->
  filter (fun h => h = f) (handlers ++ [listener])
  = filter (fun h => h = f) handlers.
Proof.
  intros Hne. rewrite filter_app, filter_cons_False by done.
  by rewrite app_nil_r.
Qed.

(** What [on] and [off] do to the subscriptions of the default listener. *)
Lemma default_count_on type listener s type' :
  listener <> defaultErrorListener ->
  default_count type' (Router.on type listener s).1
  = if decide (type = Error /\ type' = Error)
    then pred (default_count Error s)
    else default_count type' s.
Proof.
  intros Hne. unfold default_count.
  destruct (on_state type listener s) as (_ & _ & _ & ->).
  destruct (decide (type = Error)) as [->|Hty].
  - destruct (decide (type' = Error)) as [->|Hty'].
    + rewrite decide_True by done.
      by rewrite filter_remove_first_eq, count_snoc_ne.
    + rewrite decide_False by (by intros [_ ?]). done.
  - rewrite (decide_False (P := _ /\ _)) by (by intros [? _]).
    case_decide; [subst; by rewrite count_snoc_ne|done].
Qed.

Lemma default_count_off type listener s type' :
  listener <> defaultErrorListener ->
  default_count type' (Router.off type listener s).1 = default_count type' s.
Proof.
  intros Hne. unfold default_count.
  destruct (off_state type listener s) as (_ & _ & _ & ->).
  case_decide; [subst; by rewrite filter_remove_first_ne|done].
Qed.

Lemma remove_first_ne (f listener : Fn) :
  listener <> f -> Emitter.remove_first listener [f] = [f].
Proof. intros Hne. simpl. by rewrite decide_False. Qed.

(** *** The invariants, call by call *)

Lemma dispatch_invariant (Inv : State -> Prop) entry fuel request options s :
  (forall w s, Inv s -> Inv (set_world w s)) ->
  (forall ev, respects (fun s s' => Inv s -> Inv s')
                (Emitter.emit (type_name (event_type ev)) ev)) ->
  Inv s -> Inv (dispatch entry fuel request options s).1.
Proof.
  intros Hworld Hemit.
  by apply (respects_dispatch _ (invariant_preorder Inv)).
Qed.

Lemma call_invariant (Inv : State -> Prop) fuel c s :
  (forall w s, Inv s -> Inv (set_world w s)) ->
  (forall ev, respects (fun s s' => Inv s -> Inv s')
                (Emitter.emit (type_name (event_type ev)) ev)) ->
  (forall m s, Inv s -> Inv (Router.middleware_push m s).1) ->
  (forall type l, c = CallOn type l -> Inv s -> Inv (Router.on type l s).1) ->
  (forall type l, c = CallOff type l -> Inv s -> Inv (Router.off type l s).1) ->
  Inv s -> Inv (call fuel c s).1.
Proof.
  intros Hworld Hemit Hpush Hon Hoff Hs.
  destruct c as [type l|type l|a b h|verb p h|request options|request options].
  - rewrite call_on_state. by apply Hon.
  - rewrite call_off_state. by apply Hoff.
  - destruct (registration_call fuel (CallUse a b h) s Logic.I)
      as [(m & _ & _ & ->)|(_ & ->)]; auto.
  - destruct (registration_call fuel (CallVerb verb p h) s Logic.I)
      as [(m & _ & _ & ->)|(_ & ->)]; auto.
  - rewrite (call_route_state fuel (CallRouteSync request options)).
    by apply dispatch_invariant.
  - rewrite (call_route_state fuel (CallRouteAsync request options)).
    by apply dispatch_invariant.
Qed.

Lemma run_invariant (Inv : State -> Prop) (P : Call -> Prop) fuel calls s :
  (forall c s, P c -> Inv s -> Inv (call fuel c s).1) ->
  Forall P calls -> Inv s -> Inv (run fuel calls s).
Proof.
  intros Hcall Hcalls. revert s.
  induction Hcalls as [|c rest Hc _ IH]; intros s Hs; simpl; [done|].
  specialize (Hcall c s Hc Hs).
  destruct (call fuel c s) as [s' [[]|e|]]; simpl in *; auto.
Qed.

Lemma call_default_at_most_once fuel c s :
  user_call c -> default_at_most_once s ->
  default_at_most_once (call fuel c s).1.
Proof.
  intros Hu. apply call_invariant; try done.
  - apply emit_default_at_most_once.
  - intros type l -> (Hb & Ha & He). unfold default_at_most_once.
    rewrite !default_count_on by done.
    rewrite !(decide_False (P := _ /\ Before = _)) by (by intros [_ ?]).
    rewrite !(decide_False (P := _ /\ After = _)) by (by intros [_ ?]).
    case_decide; split_and!; try done; lia.
  - intros type l ->. unfold default_at_most_once.
    by rewrite !default_count_off.
Qed.

(** Once the user subscribes to [error], the default listener is
    subscribed to nothing. *)
Lemma on_error_retires listener s :
  listener <> defaultErrorListener -> default_at_most_once s ->
  default_retired (deliveries_to defaultErrorListener (delivered s))
    (Router.on Error listener s).1.
Proof.
  intros Hne (Hb & Ha & He). split.
  - intros type. rewrite default_count_on by done.
    destruct type; case_decide as Hd;
      try (destruct Hd as [_ Hd]; discriminate); try done; try lia.
    by destruct Hd.
  - by destruct (on_state Error listener s) as (_ & -> & _).
Qed.

Lemma call_default_retired history fuel c s :
  user_call c -> default_retired history s ->
  default_retired history (call fuel c s).1.
Proof.
  intros Hu. apply call_invariant; try done.
  - apply emit_default_retired.
  - intros type l -> (Hgone & Hlog). split.
    + intros type'. rewrite default_count_on by done.
      case_decide; [by rewrite Hgone|done].
    + by destruct (on_state type l s) as (_ & -> & _).
  - intros type l -> (Hgone & Hlog). split.
    + intros type'. by rewrite default_count_off.
    + by destruct (off_state type l s) as (_ & -> & _).
Qed.

Lemma call_default_in_charge fuel c s :
  user_call c -> ~ subscribes_error c -> default_in_charge s ->
  default_in_charge (call fuel c s).1.
Proof.
  intros Hu Hns. apply call_invariant; try done.
  - apply emit_default_in_charge.
  - intros type l -> (Herr & Hb & Ha & Hlog).
    assert (type <> Error) as Hty by (by intros ->).
    destruct (on_state type l s) as (He & Hd & _ & Hl).
    unfold default_in_charge. rewrite He, Hd, Hl, !default_count_on by done.
    rewrite !decide_False by first [done|by intros [? _]]. by split_and!.
  - intros type l -> (Herr & Hb & Ha & Hlog).
    destruct (off_state type l s) as (He & Hd & _ & Hl).
    unfold default_in_charge. rewrite He, Hd, Hl, !default_count_off by done.
    split_and!; try done.
    case_decide; [subst; by rewrite Herr, remove_first_ne|done].
Qed.

Lemma new_state_default_in_charge w : default_in_charge (new_state w).
Proof. done. Qed.

Lemma default_in_charge_at_most_once s :
  default_in_charge s -> default_at_most_once s.
Proof.
  intros (Herr & Hb & Ha & _). split_and!; try done.
  unfold default_count. rewrite Herr. rewrite filter_cons_True by done. done.
Qed.

End CallsAndListeners.

(** ** The registration methods *)

Section RegistrationProperties.
Context `{C : Collaborators}.

(** C4, as the code has it.  When its first argument is a function, [use]
    appends that function to the chain, whatever the other arguments are.
    Otherwise, when the path and the handler are both truthy, it appends
    the middleware [createMiddleware] builds from the three arguments.
    Otherwise it throws [TypeError('Invalid arguments.')] at once: the
    chain, the listeners and the history of events are as before. *)
Theorem use_argument_shapes methodOrMiddleware path middlewareOrResponse s :
  (forall f, methodOrMiddleware = VFun f ->
     Router.use methodOrMiddleware path middlewareOrResponse s
     = ((Router.middleware_push f s).1,
        Normal (router (Router.middleware_push f s).1))) /\
  (forall m, is_function methodOrMiddleware = false ->
     truthy path = true -> truthy middlewareOrResponse = true ->
     createMiddleware methodOrMiddleware path middlewareOrResponse = Normal m ->
     Router.use methodOrMiddleware path middlewareOrResponse s
     = ((Router.middleware_push m s).1,
        Normal (router (Router.middleware_push m s).1))) /\
  (is_function methodOrMiddleware = false ->
   truthy path && truthy middlewareOrResponse = false ->
   Router.use methodOrMiddleware path middlewareOrResponse s
   = (s, Throw (VError "TypeError" "Invalid arguments."))).
Proof.
  split_and!.
  - intros f ->. apply use_function.
  - intros m Hf Hp Hh Hm. by rewrite use_route, Hm.
  - apply use_invalid.
Qed.

(** C6.  Each HTTP-verb wrapper does what [use] does with the wrapper's
    method pattern and the same path and handler: the same state of the
    router and of everything else, and the same outcome. *)
Theorem verb_wrappers_are_use path middlewareOrResponse s :
  Router.all path middlewareOrResponse s
  = Router.use (VStr "*") path middlewareOrResponse s /\
  Router.options path middlewareOrResponse s
  = Router.use (VStr "options") path middlewareOrResponse s /\
  Router.head path middlewareOrResponse s
  = Router.use (VStr "head") path middlewareOrResponse s /\
  Router.get path middlewareOrResponse s
  = Router.use (VStr "get") path middlewareOrResponse s /\
  Router.post path middlewareOrResponse s
  = Router.use (VStr "post") path middlewareOrResponse s /\
  Router.put path middlewareOrResponse s
  = Router.use (VStr "put") path middlewareOrResponse s /\
  Router.patch path middlewareOrResponse s
  = Router.use (VStr "patch") path middlewareOrResponse s /\
  Router.delete path middlewareOrResponse s
  = Router.use (VStr "delete") path middlewareOrResponse s.
Proof. split_and!; apply use_return_this. Qed.

(** C7.  After a sequence of registration calls that all return, the chain
    is the chain from before followed by one middleware per call, in the
    order of the calls; a registration call that does not return leaves
    the state as it was; and [routeSync] and [routeAsync] leave the router,
    and so the chain, as they found it. *)
Theorem middleware_is_append_only :
  (forall fuel calls s,
     Forall is_registration calls -> all_return fuel calls s ->
     exists ms,
       Forall2 registers calls ms /\
       middleware (router (run fuel calls s)) = middleware (router s) ++ ms /\
       emitter (router (run fuel calls s)) = emitter (router s)) /\
  (forall fuel c s,
     is_registration c -> (call fuel c s).2 <> Normal tt ->
     (call fuel c s).1 = s) /\
  (forall fuel request options s,
     router (Router.routeSync fuel request options s).1 = router s /\
     router (Router.routeAsync fuel request options s).1 = router s).
Proof.
  split_and!.
  - intros fuel calls s Hreg. revert s.
    induction Hreg as [|c rest Hc _ IH]; intros s Hret; simpl in *.
    { exists []. by rewrite app_nil_r. }
    destruct Hret as [Hc_ret Hrest].
    destruct (registration_call fuel c s Hc) as [(m & Hm & _ & Hs)|[Hne _]];
      [|done].
    destruct (call fuel c s) as [s' r]; simpl in *. subst r s'.
    destruct (IH _ Hrest) as (ms & Hms & Hchain & Hbus).
    exists (m :: ms). split_and!; [by constructor| |done].
    rewrite Hchain. simpl. by rewrite <- app_assoc.
  - intros fuel c s Hc Hne.
    destruct (registration_call fuel c s Hc) as [(m & _ & Hret & _)|[_ Hs]];
      done.
  - intros fuel request options s. split.
    + apply (respects_dispatch (fun s s' => router s' = router s)
               ltac:(split; [by intros ?|by intros ??? -> ->])
               ltac:(done) ViaRouteSync).
      intros ev s'. apply emit_router.
    + pose proof (respects_dispatch (fun s s' => router s' = router s)
               ltac:(split; [by intros ?|by intros ??? -> ->])
               ltac:(done) ViaRouteAsync fuel request options
               ltac:(intros ev s'; apply emit_router) s) as H.
      simpl in H. by destruct (Router.routeAsync fuel request options s).
Qed.

End RegistrationProperties.

(** [use] with a path and a handler registers what [createMiddleware]
    builds; with an empty path it throws; with a function first it appends
    the function. *)
Lemma use_argument_shapes_witness :
  Router.use (C := Sample.collaborators) (VStr "get") (VStr "/x") (VFun 1)
    (Sample.state_with [])
  = ((Router.middleware_push 101 (Sample.state_with [])).1,
     Normal (router (Router.middleware_push 101 (Sample.state_with [])).1)) /\
  Router.use (C := Sample.collaborators) (VStr "get") (VStr "/x") VUndefined
    (Sample.state_with [])
  = (Sample.state_with [], Throw (VError "TypeError" "Invalid arguments.")) /\
  Router.use (C := Sample.collaborators) (VFun 7) VUndefined VUndefined
    (Sample.state_with [])
  = ((Router.middleware_push 7 (Sample.state_with [])).1,
     Normal (router (Router.middleware_push 7 (Sample.state_with [])).1)).
Proof.
  split_and!.
  - destruct (use_argument_shapes (C := Sample.collaborators)
                (VStr "get") (VStr "/x") (VFun 1) (Sample.state_with []))
      as (_ & Hroute & _).
    apply Hroute; reflexivity.
  - destruct (use_argument_shapes (C := Sample.collaborators)
                (VStr "get") (VStr "/x") VUndefined (Sample.state_with []))
      as (_ & _ & Hinvalid).
    apply Hinvalid; reflexivity.
  - destruct (use_argument_shapes (C := Sample.collaborators)
                (VFun 7) VUndefined VUndefined (Sample.state_with []))
      as (Hfunction & _ & _).
    apply Hfunction; reflexivity.
Defined.

(** [use(f, '/x')] appends [f] and throws nothing, and [use('get', '', f)],
    whose path and handler are both there, throws. *)
Lemma use_argument_shapes_counterexample :
  (Router.use (C := Sample.collaborators) (VFun 1) (VStr "/x") VUndefined
     (Sample.state_with [])).2
  = Normal
      (router
         (Router.use (C := Sample.collaborators) (VFun 1) (VStr "/x")
            VUndefined (Sample.state_with [])).1) /\
  middleware
    (router
       (Router.use (C := Sample.collaborators) (VFun 1) (VStr "/x") VUndefined
          (Sample.state_with [])).1) = [1] /\
  Router.use (C := Sample.collaborators) (VStr "get") (VStr EmptyString)
    (VFun 1) (Sample.state_with [])
  = (Sample.state_with [], Throw (VError "TypeError" "Invalid arguments.")).
Proof. split_and!; reflexivity. Qed.

(** Three registrations in a row. *)
Lemma middleware_is_append_only_witness :
  exists ms,
    Forall2 (registers (C := Sample.collaborators))
      [CallUse (VFun 1) VUndefined VUndefined;
       CallVerb Get (VStr "/x") (VFun 2);
       CallUse (VStr "post") (VStr "/y") (VObj ∅)] ms /\
    middleware
      (router
         (run 1
            [CallUse (VFun 1) VUndefined VUndefined;
             CallVerb Get (VStr "/x") (VFun 2);
             CallUse (VStr "post") (VStr "/y") (VObj ∅)]
            (Sample.state_with [9])))
    = middleware (router (Sample.state_with [9])) ++ ms /\
    emitter
      (router
         (run 1
            [CallUse (VFun 1) VUndefined VUndefined;
             CallVerb Get (VStr "/x") (VFun 2);
             CallUse (VStr "post") (VStr "/y") (VObj ∅)]
            (Sample.state_with [9])))
    = emitter (router (Sample.state_with [9])).
Proof.
  apply (middleware_is_append_only (C := Sample.collaborators)).
  - repeat constructor.
  - simpl. split_and!; reflexivity.
Defined.

(** ** Normalisation *)

Section Normalisation.
Context `{C : Collaborators}.

Lemma routeAsync_dispatch fuel request options s :
  Router.routeAsync fuel request options s
  = ((dispatch ViaRouteAsync fuel request options s).1,
     async (dispatch ViaRouteAsync fuel request options s).2).
Proof.
  unfold dispatch, Router.routeAsync.
  destruct (Router.routeAsync_body fuel request options s) as [s' c].
  simpl. by rewrite await_async.
Qed.

(** C8.  When [normaliseRequest] throws, or [normaliseContext] throws after
    it, [routeSync] throws the same value and the promise of [routeAsync]
    is rejected with it, and the state is as it was: no event was emitted
    and no listener was called. *)
Theorem normalisation_errors_bypass_events entry fuel request options s e :
  normaliseRequest request = Throw e \/
  ((exists request', normaliseRequest request = Normal request') /\
   normaliseContext {| execution := execution_tag entry |} = Throw e) ->
  match entry with
  | ViaRouteSync => Router.routeSync fuel request options s = (s, Throw e)
  | ViaRouteAsync => Router.routeAsync fuel request options s = (s, Rejected e)
  end.
Proof.
  intros Hnorm.
  assert (dispatch entry fuel request options s = (s, Throw e)) as Hd.
  { rewrite dispatch_unfold. unfold bind, pure_call.
    destruct Hnorm as [->|[[request' ->] ->]]; done. }
  destruct entry; [done|]. by rewrite routeAsync_dispatch, Hd.
Qed.

End Normalisation.

(** A request the normaliser refuses: both entry points fail with its
    exception in a state without events. *)
Lemma normalisation_errors_bypass_events_witness :
  Router.routeSync (C := Sample.collaborators) 3 Sample.bad_request None
    (Sample.state_with [1])
  = (Sample.state_with [1], Throw (VError "TypeError" "Invalid URL")) /\
  Router.routeAsync (C := Sample.collaborators) 3 Sample.bad_request None
    (Sample.state_with [1])
  = (Sample.state_with [1], Rejected (VError "TypeError" "Invalid URL")).
Proof.
  split.
  - apply (normalisation_errors_bypass_events (C := Sample.collaborators)
             ViaRouteSync).
    left. reflexivity.
  - apply (normalisation_errors_bypass_events (C := Sample.collaborators)
             ViaRouteAsync).
    left. reflexivity.
Defined.

(** ** The default error listener *)

Section DefaultListener.
Context `{C : Collaborators}.

(** C3.  From a new router on, as long as the user has not called
    [on('error', ...)], the [error] events emitted are exactly the payloads
    the default listener was called with, in order.  After a call
    [on('error', listener)] the default listener is called no more,
    whatever calls follow, calls of [off] included. *)
Theorem default_listener_handoff :
  (forall fuel calls w,
     Forall user_call calls ->
     Forall (fun c => ~ subscribes_error c) calls ->
     error_events (emitted (run fuel calls (new_state w)))
     = deliveries_to defaultErrorListener
         (delivered (run fuel calls (new_state w)))) /\
  (forall fuel calls listener calls' w,
     Forall user_call calls -> listener <> defaultErrorListener ->
     Forall user_call calls' ->
     let s := (Router.on Error listener (run fuel calls (new_state w))).1 in
     (forall type, defaultErrorListener ∉ listeners type (run fuel calls' s)) /\
     deliveries_to defaultErrorListener (delivered (run fuel calls' s))
     = deliveries_to defaultErrorListener (delivered s)).
Proof.
  split.
  - intros fuel calls w Hu Hns.
    apply (run_invariant default_in_charge
             (fun c => user_call c /\ ~ subscribes_error c)).
    + intros c s [? ?]. by apply call_default_in_charge.
    + rewrite Forall_forall in *. intros c Hc. auto.
    + apply new_state_default_in_charge.
  - intros fuel calls listener calls' w Hu Hne Hu' s.
    assert (default_at_most_once (run fuel calls (new_state w))) as Honce.
    { apply (run_invariant default_at_most_once user_call); [|done|].
      - intros c s'. apply call_default_at_most_once.
      - apply default_in_charge_at_most_once, new_state_default_in_charge. }
    pose proof (on_error_retires listener _ Hne Honce) as Hret. fold s in Hret.
    assert (delivered s = delivered (run fuel calls (new_state w))) as Hs.
    { unfold s. by destruct (on_state Error listener
                               (run fuel calls (new_state w))) as (_ & -> & _). }
    rewrite <- Hs in Hret.
    destruct (run_invariant _ user_call fuel calls' s
                (fun c s' => call_default_retired _ fuel c s') Hu' Hret)
      as [Hgone Hlog].
    split; [|done]. intros type Hin.
    specialize (Hgone type). apply default_count_0 in Hgone.
    assert (defaultErrorListener
              ∈ filter (fun h => h = defaultErrorListener)
                  (listeners type (run fuel calls' s))) as Hf.
    { by apply list_elem_of_filter. }
    rewrite Hgone in Hf. by apply not_elem_of_nil in Hf.
Qed.

End DefaultListener.

(** A new router, a listener for [before], a chain that throws: the one
    [error] event went to the default listener.  After [on('error', 10)],
    two failing dispatches with [off('error', 10)] between them do not
    reach it. *)
Lemma default_listener_handoff_witness :
  error_events
    (emitted
       (run (C := Sample.collaborators) 2
          [CallUse (VFun 2) VUndefined VUndefined; CallOn Before 10;
           CallRouteSync Sample.request None]
          (new_state (0 : @World Sample.collaborators))))
  = deliveries_to 0
      (delivered
         (run (C := Sample.collaborators) 2
            [CallUse (VFun 2) VUndefined VUndefined; CallOn Before 10;
             CallRouteSync Sample.request None]
            (new_state (0 : @World Sample.collaborators)))) /\
  deliveries_to 0
    (delivered
       (run (C := Sample.collaborators) 2
          [CallRouteSync Sample.request None; CallOff Error 10;
           CallRouteAsync Sample.request None]
          (Router.on Error 10
             (run 2 [CallUse (VFun 2) VUndefined VUndefined]
                (new_state (0 : @World Sample.collaborators)))).1))
  = deliveries_to 0
      (delivered
         (Router.on (C := Sample.collaborators) Error 10
            (run 2 [CallUse (VFun 2) VUndefined VUndefined]
               (new_state (0 : @World Sample.collaborators)))).1).
Proof.
  destruct (default_listener_handoff (C := Sample.collaborators))
    as [Hbefore Hafter].
  split.
  - apply Hbefore.
    + repeat constructor. discriminate.
    + repeat constructor; by intros [].
  - apply (Hafter 2 [CallUse (VFun 2) VUndefined VUndefined] 10
             [CallRouteSync Sample.request None; CallOff Error 10;
              CallRouteAsync Sample.request None]).
    + repeat constructor.
    + discriminate.
    + repeat constructor. discriminate.
Defined.

(** ** One pass of the loop *)

Section Passes.
Context `{C : Collaborators}.

Lemma new_events_app s s' evs :
  emitted s' = emitted s ++ evs -> new_events s s' = evs.
Proof. intros H. unfold new_events. by rewrite H, drop_app_length. Qed.

Lemma route_result_lookup request response :
  (forall k v, response !! k = Some v ->
               Router.route_result request response !! k = Some v) /\
  (response !! "url" = None ->
   Router.route_result request response !! "url"
   = Some (get_prop request "url")) /\
  (response !! "redirected" = None ->
   Router.route_result request response !! "redirected" = Some (VBool false)) /\
  (forall k, k <> "url" -> k <> "redirected" ->
             Router.route_result request response !! k = response !! k).
Proof.
  unfold Router.route_result, spread_over. split_and!.
  - intros k v Hk. by apply lookup_union_Some_l.
  - intros Hk. rewrite lookup_union_r by done. by simplify_map_eq.
  - intros Hk. rewrite lookup_union_r by done. by simplify_map_eq.
  - intros k Hu Hr. destruct (response !! k) as [v|] eqn:Hk.
    + by apply lookup_union_Some_l.
    + rewrite lookup_union_r by done. by simplify_map_eq.
Qed.

(** A pass whose [before] event is delivered and whose chain answers. *)
Lemma pass_after entry request context s s1 w2 response :
  Router.emitBeforeEvent request context s = (s1, Normal tt) ->
  chain_executor entry request context (middleware (router s1)) (world s1)
  = (w2, Normal response) ->
  pass entry request context s
  = ((Router.emitAfterEvent request response context (set_world w2 s1)).1,
     match (Router.emitAfterEvent request response context
              (set_world w2 s1)).2 with
     | Normal _ => Normal response
     | Throw e => Throw e
     | Diverge => Diverge
     end).
Proof.
  intros Hbefore Hchain. rewrite pass_unfold.
  rewrite (bind_normal _ _ _ _ _ Hbefore).
  unfold bind, Router.this_middleware, world_call, ret. rewrite Hchain.
  by destruct (Router.emitAfterEvent _ _ _ _) as [s3 [[]|e|]].
Qed.

(** What a pass emits: [before], and [after] when the chain answered. *)
Lemma pass_events entry request context s :
  (emitted (pass entry request context s).1
   = emitted s ++ [BeforeEvent request context] /\
   forall a, (pass entry request context s).2 <> Normal a) \/
  (exists response,
     emitted (pass entry request context s).1
     = emitted s ++ [BeforeEvent request context;
                     AfterEvent request response context] /\
     forall a, (pass entry request context s).2 = Normal a -> a = response).
Proof.
  remember (pass entry request context s) as r eqn:Hr.
  rewrite pass_unfold in Hr. unfold bind at 1 in Hr.
  pose proof (emit_emitted "before" (BeforeEvent request context) s) as Hb.
  fold (Router.emitBeforeEvent request context) in *.
  destruct (Router.emitBeforeEvent request context s) as [s1 [[]|e|]];
    simpl in Hb; [|subst r; by left..].
  unfold bind, Router.this_middleware, world_call in Hr.
  destruct (chain_executor _ _ _ _ _) as [w2 [response|e|]];
    [|subst r; by left..].
  right. exists response.
  pose proof (emit_emitted "after" (AfterEvent request response context)
                (set_world w2 s1)) as Ha.
  fold (Router.emitAfterEvent request response context) in *.
  destruct (Router.emitAfterEvent _ _ _ _) as [s3 [[]|e|]]; subst r;
    simpl in *; rewrite Ha, Hb, <- app_assoc; split; try done.
  by intros a [= ->].
Qed.

(** With a falsy [redirect] option the [try] block is one pass. *)
Lemma try_block_once entry fuel options request context s :
  truthy (get_prop options "redirect") = false ->
  try_block entry (S fuel) options request context s
  = (response <- pass entry request context ;;
     ret (Router.route_result request response)) s.
Proof.
  intros Hfalsy. rewrite try_block_unfold. simpl.
  unfold Router.loop_condition. rewrite Hfalsy. unfold bind, ret.
  by destruct (pass entry request context s) as [s1 [response|e|]].
Qed.

(** After a pass, the [try] block goes round again or ends. *)
Lemma try_block_step entry fuel options request context s s1 response b :
  pass entry request context s = (s1, Normal response) ->
  isRedirect response = Normal b ->
  try_block entry (S fuel) options request context s
  = if truthy (get_prop options "redirect") && b
    then try_block entry fuel options request context s1
    else (s1, Normal (Router.route_result request response)).
Proof.
  intros Hpass Hred. rewrite !try_block_unfold. simpl.
  unfold Router.loop_condition, pure_call, bind, ret. rewrite Hpass, Hred.
  by destruct (truthy _), b.
Qed.

(** A pass that fails ends the [try] block. *)
Lemma try_block_pass_throw entry fuel options request context s s1 e :
  pass entry request context s = (s1, Throw e) ->
  try_block entry (S fuel) options request context s = (s1, Throw e).
Proof.
  intros Hpass. rewrite try_block_unfold. simpl. unfold bind.
  by rewrite Hpass.
Qed.

Lemma try_block_pass_diverge entry fuel options request context s s1 :
  pass entry request context s = (s1, Diverge) ->
  try_block entry (S fuel) options request context s = (s1, Diverge).
Proof.
  intros Hpass. rewrite try_block_unfold. simpl. unfold bind.
  by rewrite Hpass.
Qed.

(** A pass that is not followed as a redirect ends the [try] block. *)
Lemma try_block_pass_last entry fuel options request context s s1 response :
  pass entry request context s = (s1, Normal response) ->
  (truthy (get_prop options "redirect") = true ->
   isRedirect response = Normal false) ->
  try_block entry (S fuel) options request context s
  = (s1, Normal (Router.route_result request response)).
Proof.
  intros Hpass Hred. destruct (truthy (get_prop options "redirect")) eqn:Hopt.
  - rewrite (try_block_step _ _ _ _ _ _ _ _ _ Hpass (Hred eq_refl)).
    by rewrite andb_false_r.
  - rewrite try_block_once by done. by rewrite (bind_normal _ _ _ _ _ Hpass).
Qed.

(** The [catch] block emits the [error] event and throws again. *)
Lemma route_catch_run request context e s :
  Router.route_catch request context e s
  = ((Router.emitErrorEvent request e context s).1,
     after_catch e (Router.emitErrorEvent request e context s).2).
Proof.
  unfold Router.route_catch, bind, throw.
  by destruct (Router.emitErrorEvent request e context s) as [s' [[]|e'|]].
Qed.

Lemma route_catch_emitted request context e s :
  emitted (Router.route_catch request context e s).1
  = emitted s ++ [ErrorEvent request e context].
Proof. rewrite route_catch_run. apply emit_emitted. Qed.

(** The events of a dispatch that makes one pass. *)
Lemma once_events entry request context s :
  let r :=
    try_catch
      (response <- pass entry request context ;;
       ret (Router.route_result request response))
      (Router.route_catch request context) s in
  count_events Before (new_events s r.1) = 1 /\
  count_events After (new_events s r.1) <= 1 /\
  count_events Error (new_events s r.1) <= 1.
Proof.
  unfold try_catch, bind, ret.
  destruct (pass_events entry request context s)
    as [[Hev Hnot]|(response & Hev & _)];
    destruct (pass entry request context s) as [s1 [a|e|]]; simpl in *;
    try (by destruct (Hnot a));
    try (rewrite (new_events_app _ _ _ Hev); cbv; lia).
  - pose proof (route_catch_emitted request context e s1) as He.
    rewrite Hev, <- app_assoc in He.
    rewrite (new_events_app _ _ _ He). cbv; lia.
  - pose proof (route_catch_emitted request context e s1) as He.
    rewrite Hev, <- app_assoc in He.
    rewrite (new_events_app _ _ _ He). cbv; lia.
Qed.

End Passes.

(** ** The dispatch entry points *)

Section DispatchProperties.
Context `{C : Collaborators}.

Lemma emits_only_preorder P : PreOrder (emits_only P).
Proof.
  split.
  - intros s. exists []. by rewrite app_nil_r.
  - intros s1 s2 s3 (evs & H12 & Hevs) (evs' & H23 & Hevs').
    exists (evs ++ evs'). rewrite H23, H12, <- app_assoc.
    split; [done|by apply Forall_app].
Qed.

(** The [try] block emits no [error] event. *)
Lemma try_block_no_error entry fuel options request context s :
  count_events Error
    (new_events s (try_block entry fuel options request context s).1) = 0.
Proof.
  destruct (respects_try_block (emits_only (fun type => type <> Error))
              (emits_only_preorder _)
              ltac:(intros w s'; exists []; by rewrite app_nil_r)
              entry fuel options request context
              ltac:(intros ev Hev s'; exists [ev];
                    by rewrite emit_emitted, Forall_singleton) s)
    as (evs & Hevs & Hno).
  rewrite (new_events_app _ _ _ Hevs). unfold count_events. clear Hevs.
  apply length_zero_iff_nil. induction Hno as [|ev evs' Hev _ IH]; [done|].
  rewrite filter_cons_False by done. exact IH.
Qed.

Lemma entry_point_dispatch entry fuel request options s :
  match entry with
  | ViaRouteSync =>
      Router.routeSync fuel request options s
      = dispatch entry fuel request options s
  | ViaRouteAsync =>
      Router.routeAsync fuel request options s
      = ((dispatch entry fuel request options s).1,
         async (dispatch entry fuel request options s).2)
  end.
Proof. destruct entry; [done|apply routeAsync_dispatch]. Qed.

(** C1, as the code has it.  Take a dispatch whose [before] event is
    delivered and whose chain then answers with a response that is not
    followed as a redirect.  It emits one [before] and one [after] event.
    When the [after] event is delivered too, it returns (the promise of
    [routeAsync] is fulfilled with) the result made of every field of the
    response, of [url], the URL of the request, unless the response has a
    field [url], and of [redirected], false, unless the response has a
    field [redirected]; [before] and [after] are then all it has
    emitted. *)
Theorem non_redirect_dispatch
    entry fuel request options s request' context s1 w2 response :
  normaliseRequest request = Normal request' ->
  normaliseContext {| execution := execution_tag entry |} = Normal context ->
  Router.emitBeforeEvent request' context s = (s1, Normal tt) ->
  chain_executor entry request' context (middleware (router s1)) (world s1)
  = (w2, Normal response) ->
  (truthy (get_prop (default Router.default_options options) "redirect") = true ->
   isRedirect response = Normal false) ->
  let after :=
    Router.emitAfterEvent request' response context (set_world w2 s1) in
  let r := dispatch entry (S fuel) request options s in
  match entry with
  | ViaRouteSync => Router.routeSync (S fuel) request options s = r
  | ViaRouteAsync =>
      Router.routeAsync (S fuel) request options s = (r.1, async r.2)
  end /\
  count_events Before (new_events s r.1) = 1 /\
  count_events After (new_events s r.1) = 1 /\
  (after.2 = Normal tt ->
   r = (after.1, Normal (Router.route_result request' response)) /\
   new_events s r.1
   = [BeforeEvent request' context; AfterEvent request' response context]) /\
  (forall k v, response !! k = Some v ->
               Router.route_result request' response !! k = Some v) /\
  (response !! "url" = None ->
   Router.route_result request' response !! "url"
   = Some (get_prop request' "url")) /\
  (response !! "redirected" = None ->
   Router.route_result request' response !! "redirected"
   = Some (VBool false)) /\
  (forall k, k <> "url" -> k <> "redirected" ->
             Router.route_result request' response !! k = response !! k).
Proof.
  intros Hreq Hctx Hbefore Hchain Hred after r.
  split; [apply entry_point_dispatch|].
  assert (emitted after.1
          = emitted s ++ [BeforeEvent request' context;
                          AfterEvent request' response context]) as Hev.
  { unfold after, Router.emitAfterEvent. rewrite emit_emitted. simpl.
    pose proof (emit_emitted "before" (BeforeEvent request' context) s) as Hb.
    fold (Router.emitBeforeEvent request' context) in Hb.
    rewrite Hbefore in Hb. simpl in Hb. by rewrite Hb, <- app_assoc. }
  assert (r = match after.2 with
              | Normal _ =>
                  (after.1, Normal (Router.route_result request' response))
              | Throw e => Router.route_catch request' context e after.1
              | Diverge => (after.1, Diverge)
              end) as Hr.
  { unfold r. rewrite (dispatch_normalised _ _ _ _ _ _ _ Hreq Hctx).
    unfold try_catch.
    pose proof (pass_after _ _ _ _ _ _ _ Hbefore Hchain) as Hpass.
    fold after in Hpass.
    destruct after as [s3 [[]|e|]]; simpl in *.
    - by rewrite (try_block_pass_last _ _ _ _ _ _ _ _ Hpass Hred).
    - by rewrite (try_block_pass_throw _ _ _ _ _ _ _ _ Hpass).
    - by rewrite (try_block_pass_diverge _ _ _ _ _ _ _ Hpass). }
  split_and!; try apply route_result_lookup.
  - rewrite Hr. destruct after as [s3 [[]|e|]]; simpl in *.
    + rewrite (new_events_app _ _ _ Hev). by cbv.
    + pose proof (route_catch_emitted request' context e s3) as He.
      rewrite Hev, <- app_assoc in He. rewrite (new_events_app _ _ _ He).
      by cbv.
    + rewrite (new_events_app _ _ _ Hev). by cbv.
  - rewrite Hr. destruct after as [s3 [[]|e|]]; simpl in *.
    + rewrite (new_events_app _ _ _ Hev). by cbv.
    + pose proof (route_catch_emitted request' context e s3) as He.
      rewrite Hev, <- app_assoc in He. rewrite (new_events_app _ _ _ He).
      by cbv.
    + rewrite (new_events_app _ _ _ Hev). by cbv.
  - intros Hafter. rewrite Hr, Hafter. split; [done|].
    simpl. by rewrite (new_events_app _ _ _ Hev).
Qed.

End DispatchProperties.

(** A request answered with 200 by the first middleware, through
    [routeSync] and through [routeAsync]. *)
Lemma non_redirect_dispatch_witness :
  Router.routeSync (C := Sample.collaborators) 1 Sample.request None
    (Sample.state_with [1])
  = ((Router.emitAfterEvent Sample.request Sample.ok_response
        (Sample.context Synchronous)
        (set_world (1 : @World Sample.collaborators)
           (Router.emitBeforeEvent Sample.request (Sample.context Synchronous)
              (Sample.state_with [1])).1)).1,
     Normal (Router.route_result Sample.request Sample.ok_response)) /\
  Router.routeAsync (C := Sample.collaborators) 1 Sample.request None
    (Sample.state_with [1])
  = ((Router.emitAfterEvent Sample.request Sample.ok_response
        (Sample.context Asynchronous)
        (set_world (1 : @World Sample.collaborators)
           (Router.emitBeforeEvent Sample.request (Sample.context Asynchronous)
              (Sample.state_with [1])).1)).1,
     Fulfilled (Router.route_result Sample.request Sample.ok_response)).
Proof.
  split.
  - destruct (non_redirect_dispatch (C := Sample.collaborators)
                ViaRouteSync 0 Sample.request None (Sample.state_with [1])
                Sample.request (Sample.context Synchronous)
                (Router.emitBeforeEvent Sample.request
                   (Sample.context Synchronous) (Sample.state_with [1])).1
                (1 : @World Sample.collaborators) Sample.ok_response
                eq_refl eq_refl eq_refl eq_refl (fun _ => eq_refl))
      as (Hsync & _ & _ & Hresult & _).
    destruct (Hresult eq_refl) as [Hr _].
    rewrite Hsync. exact Hr.
  - destruct (non_redirect_dispatch (C := Sample.collaborators)
                ViaRouteAsync 0 Sample.request None (Sample.state_with [1])
                Sample.request (Sample.context Asynchronous)
                (Router.emitBeforeEvent Sample.request
                   (Sample.context Asynchronous) (Sample.state_with [1])).1
                (1 : @World Sample.collaborators) Sample.ok_response
                eq_refl eq_refl eq_refl eq_refl (fun _ => eq_refl))
      as (Hasync & _ & _ & Hresult & _).
    destruct (Hresult eq_refl) as [Hr _].
    rewrite Hasync, Hr. reflexivity.
Defined.

(** The fourth middleware answers 200 with fields named [redirected] and
    [url]; the classifier does not call it a redirect, and the result has
    [redirected] true and a [url] that is not the URL of the request. *)
Lemma non_redirect_dispatch_counterexample :
  (routeSync (Collaborators := Sample.collaborators) Sample.request
     (Sample.context Synchronous) [4] 0).2
  = Normal Sample.odd_response /\
  isRedirect (Collaborators := Sample.collaborators) Sample.odd_response
  = Normal false /\
  (Router.routeSync (C := Sample.collaborators) 1 Sample.request None
     (Sample.state_with [4])).2
  = Normal Sample.odd_response /\
  get_prop Sample.odd_response "redirected" <> VBool false /\
  normaliseRequest (Collaborators := Sample.collaborators) Sample.request
  = Normal Sample.request /\
  get_prop Sample.odd_response "url" <> get_prop Sample.request "url".
Proof. split_and!; (reflexivity || discriminate). Qed.

Section ErrorProperties.
Context `{C : Collaborators}.

(** C2, as the code has it.  The [try] block of a dispatch emits no
    [error] event.  When it throws, the [catch] block emits one, with the
    normalised request, the exception and the context, and the dispatch
    then raises that same exception ([routeSync] throws it, the promise of
    [routeAsync] is rejected with it) provided the emission of the [error]
    event completes, which it does when every [error] listener returns; a
    listener that throws replaces the exception by its own.  When the
    [try] block does not throw, the dispatch ends as the block ends. *)
Theorem routing_errors_are_reported
    entry fuel request options s request' context s1 c :
  normaliseRequest request = Normal request' ->
  normaliseContext {| execution := execution_tag entry |} = Normal context ->
  try_block entry fuel (default Router.default_options options)
    request' context s = (s1, c) ->
  let r := dispatch entry fuel request options s in
  match entry with
  | ViaRouteSync => Router.routeSync fuel request options s = r
  | ViaRouteAsync => Router.routeAsync fuel request options s = (r.1, async r.2)
  end /\
  count_events Error (new_events s s1) = 0 /\
  match c with
  | Throw e =>
      let report := Router.emitErrorEvent request' e context s1 in
      r = (report.1, after_catch e report.2) /\
      emitted r.1 = emitted s1 ++ [ErrorEvent request' e context] /\
      (report.2 = Normal tt -> r.2 = Throw e) /\
      ((forall f w, f ∈ listeners Error s1 ->
          (call_listener f (ErrorEvent request' e context) w).2 = Normal tt) ->
       r.2 = Throw e)
  | _ => r = (s1, c)
  end.
Proof.
  intros Hreq Hctx Htry r.
  split; [apply entry_point_dispatch|].
  split.
  { pose proof (try_block_no_error entry fuel
                  (default Router.default_options options) request' context s)
      as Hno.
    by rewrite Htry in Hno. }
  unfold r. rewrite (dispatch_normalised _ _ _ _ _ _ _ Hreq Hctx).
  unfold try_catch. rewrite Htry. destruct c as [a|e|]; [done| |done].
  rewrite route_catch_run. simpl. split_and!; [done| | |].
  - apply emit_emitted.
  - by intros ->.
  - intros Hquiet. unfold Router.emitErrorEvent.
    by rewrite emit_quiet.
Qed.

End ErrorProperties.

(** The chain throws and the default listener reports: both entry points
    fail with the exception of the chain. *)
Lemma routing_errors_are_reported_witness :
  Router.routeSync (C := Sample.collaborators) 1 Sample.request None
    (Sample.state_with [2])
  = ((Router.emitErrorEvent Sample.request Sample.boom
        (Sample.context Synchronous)
        (try_block ViaRouteSync 1 Router.default_options Sample.request
           (Sample.context Synchronous) (Sample.state_with [2])).1).1,
     Throw Sample.boom) /\
  Router.routeAsync (C := Sample.collaborators) 1 Sample.request None
    (Sample.state_with [2])
  = ((Router.emitErrorEvent Sample.request Sample.boom
        (Sample.context Asynchronous)
        (try_block ViaRouteAsync 1 Router.default_options Sample.request
           (Sample.context Asynchronous) (Sample.state_with [2])).1).1,
     Rejected Sample.boom).
Proof.
  split.
  - destruct (routing_errors_are_reported (C := Sample.collaborators)
                ViaRouteSync 1 Sample.request None (Sample.state_with [2])
                Sample.request (Sample.context Synchronous)
                (try_block ViaRouteSync 1 Router.default_options
                   Sample.request (Sample.context Synchronous)
                   (Sample.state_with [2])).1
                (Throw Sample.boom) eq_refl eq_refl eq_refl)
      as (Hsync & _ & Hr & _).
    rewrite Hsync. exact Hr.
  - destruct (routing_errors_are_reported (C := Sample.collaborators)
                ViaRouteAsync 1 Sample.request None (Sample.state_with [2])
                Sample.request (Sample.context Asynchronous)
                (try_block ViaRouteAsync 1 Router.default_options
                   Sample.request (Sample.context Asynchronous)
                   (Sample.state_with [2])).1
                (Throw Sample.boom) eq_refl eq_refl eq_refl)
      as (Hasync & _ & Hr & _).
    rewrite Hasync, Hr. reflexivity.
Defined.

(** The chain throws [boom].  With the default listener the dispatch
    raises [boom]; once the listener 11, which throws, is subscribed to
    [error], the same dispatch raises the exception of the listener. *)
Lemma routing_errors_are_reported_counterexample :
  (try_block (C := Sample.collaborators) ViaRouteSync 1 Router.default_options
     Sample.request (Sample.context Synchronous)
     (Router.on Error 11 (Sample.state_with [2])).1).2
  = Throw Sample.boom /\
  (Router.routeSync (C := Sample.collaborators) 1 Sample.request None
     (Sample.state_with [2])).2
  = Throw Sample.boom /\
  (Router.routeSync (C := Sample.collaborators) 1 Sample.request None
     (Router.on Error 11 (Sample.state_with [2])).1).2
  = Throw Sample.listener_failed /\
  (Router.routeAsync (C := Sample.collaborators) 1 Sample.request None
     (Router.on Error 11 (Sample.state_with [2])).1).2
  = Rejected Sample.listener_failed /\
  Sample.listener_failed <> Sample.boom.
Proof. split_and!; [reflexivity..|discriminate]. Qed.

Section RedirectProperties.
Context `{C : Collaborators}.

Lemma dispatch_once entry fuel request options s request' context :
  normaliseRequest request = Normal request' ->
  normaliseContext {| execution := execution_tag entry |} = Normal context ->
  truthy (get_prop options "redirect") = false ->
  dispatch entry (S fuel) request (Some options) s
  = try_catch
      (response <- pass entry request' context ;;
       ret (Router.route_result request' response))
      (Router.route_catch request' context) s.
Proof.
  intros Hreq Hctx Hfalsy.
  rewrite (dispatch_normalised _ _ _ _ _ _ _ Hreq Hctx). simpl.
  unfold try_catch. by rewrite try_block_once.
Qed.

(** C5.  With a falsy [redirect] option a dispatch is one pass of the loop
    inside the [try]: it emits one [before] event and at most one [after]
    event, and the classifier has no part in it.  Options that are left
    out are [{redirect: 'follow'}].  After a pass that leaves a response
    the classifier answers for, the loop goes round again iff the
    [redirect] option is truthy and the answer is yes, and otherwise ends
    with the result. *)
Theorem redirect_option_decides_loop :
  (forall entry fuel request options s request' context,
     normaliseRequest request = Normal request' ->
     normaliseContext {| execution := execution_tag entry |} = Normal context ->
     truthy (get_prop options "redirect") = false ->
     let r := dispatch entry (S fuel) request (Some options) s in
     r = try_catch
           (response <- pass entry request' context ;;
            ret (Router.route_result request' response))
           (Router.route_catch request' context) s /\
     count_events Before (new_events s r.1) = 1 /\
     count_events After (new_events s r.1) <= 1) /\
  (forall entry fuel request s,
     dispatch entry fuel request None s
     = dispatch entry fuel request (Some {[ "redirect" := VStr "follow" ]}) s) /\
  (forall entry fuel options request' context s s1 response again,
     pass entry request' context s = (s1, Normal response) ->
     isRedirect response = Normal again ->
     try_block entry (S fuel) options request' context s
     = if truthy (get_prop options "redirect") && again
       then try_block entry fuel options request' context s1
       else (s1, Normal (Router.route_result request' response))).
Proof.
  split_and!.
  - intros entry fuel request options s request' context Hreq Hctx Hfalsy r.
    unfold r. rewrite (dispatch_once _ _ _ _ _ _ _ Hreq Hctx Hfalsy).
    split; [done|].
    destruct (once_events entry request' context s) as (Hb & Ha & _). done.
  - intros entry fuel request s. by rewrite !dispatch_unfold.
  - intros *. apply try_block_step.
Qed.

(** C10.  Options that are given and have no [redirect] field read
    [undefined] there, which is falsy; the default is not consulted.  The
    dispatch is then one pass of the loop: one [before] event, and when
    the pass leaves a response the dispatch returns the result made from
    it, whether or not the response is a redirect. *)
Theorem explicit_options_without_redirect
    entry fuel request options s request' context :
  normaliseRequest request = Normal request' ->
  normaliseContext {| execution := execution_tag entry |} = Normal context ->
  options !! "redirect" = None ->
  let r := dispatch entry (S fuel) request (Some options) s in
  get_prop options "redirect" = VUndefined /\
  match entry with
  | ViaRouteSync => Router.routeSync (S fuel) request (Some options) s = r
  | ViaRouteAsync =>
      Router.routeAsync (S fuel) request (Some options) s = (r.1, async r.2)
  end /\
  r = dispatch entry 1 request (Some options) s /\
  count_events Before (new_events s r.1) = 1 /\
  (forall s1 response,
     pass entry request' context s = (s1, Normal response) ->
     r = (s1, Normal (Router.route_result request' response))).
Proof.
  intros Hreq Hctx Hnone r.
  assert (get_prop options "redirect" = VUndefined) as Hundef.
  { unfold get_prop. by rewrite Hnone. }
  assert (truthy (get_prop options "redirect") = false) as Hfalsy.
  { by rewrite Hundef. }
  split_and!; [done|apply entry_point_dispatch| | |].
  - unfold r. by rewrite !(dispatch_once _ _ _ _ _ _ _ Hreq Hctx Hfalsy).
  - unfold r. rewrite (dispatch_once _ _ _ _ _ _ _ Hreq Hctx Hfalsy).
    by destruct (once_events entry request' context s) as (Hb & _).
  - intros s1 response Hpass. unfold r.
    rewrite (dispatch_once _ _ _ _ _ _ _ Hreq Hctx Hfalsy).
    unfold try_catch. by rewrite (bind_normal _ _ _ _ _ Hpass).
Qed.

End RedirectProperties.

(** The chain answers a redirect.  With [{redirect: false}] the dispatch
    emits one [before] event; with the default options, after the first
    pass, the [try] block goes on from the state the pass left. *)
Lemma redirect_option_decides_loop_witness :
  count_events Before
    (new_events (Sample.state_with [3])
       (dispatch (C := Sample.collaborators) ViaRouteSync 3 Sample.request
          (Some Sample.no_follow) (Sample.state_with [3])).1)
  = 1 /\
  try_block (C := Sample.collaborators) ViaRouteAsync 2
    Router.default_options Sample.request (Sample.context Asynchronous)
    (Sample.state_with [5])
  = try_block (C := Sample.collaborators) ViaRouteAsync 1
      Router.default_options Sample.request (Sample.context Asynchronous)
      (pass ViaRouteAsync Sample.request (Sample.context Asynchronous)
         (Sample.state_with [5])).1.
Proof.
  destruct (redirect_option_decides_loop (C := Sample.collaborators))
    as (Honce & _ & Hstep).
  split.
  - apply (Honce ViaRouteSync 2 Sample.request
             Sample.no_follow (Sample.state_with [3])
             Sample.request (Sample.context Synchronous)); reflexivity.
  - apply (Hstep ViaRouteAsync 1 Router.default_options Sample.request
             (Sample.context Asynchronous) (Sample.state_with [5])
             (pass ViaRouteAsync Sample.request (Sample.context Asynchronous)
                (Sample.state_with [5])).1
             Sample.redirect_response true); reflexivity.
Defined.

(** The chain answers a redirect and the options are [{}]: the dispatch
    returns after one pass, with the redirect as its result. *)
Lemma explicit_options_without_redirect_witness :
  dispatch (C := Sample.collaborators) ViaRouteSync 3 Sample.request
    (Some Sample.empty_options) (Sample.state_with [3])
  = ((pass ViaRouteSync Sample.request (Sample.context Synchronous)
        (Sample.state_with [3])).1,
     Normal (Router.route_result Sample.request Sample.redirect_response)).
Proof.
  destruct (explicit_options_without_redirect (C := Sample.collaborators)
              ViaRouteSync 2 Sample.request Sample.empty_options
              (Sample.state_with [3])
              Sample.request (Sample.context Synchronous)
              eq_refl eq_refl eq_refl)
    as (_ & _ & _ & _ & Hresult).
  apply Hresult. reflexivity.
Defined.

(** ** The two entry points and the state machine of the specification *)

Section Refinement.
Context `{C : Collaborators}.

Lemma bind_assoc {A B D} (m : M A) (k : A -> M B) (h : B -> M D) s :
  bind (bind m k) h s = bind m (fun a => bind (k a) h) s.
Proof. unfold bind. by destruct (m s) as [s' [a|e|]]. Qed.

Lemma bind_ret_l {A B} (a : A) (k : A -> M B) s : bind (ret a) k s = k a s.
Proof. done. Qed.

Lemma bind_cong {A B} (m : M A) (k k' : A -> M B) s :
  (forall a s', k a s' = k' a s') -> bind m k s = bind m k' s.
Proof. intros Hk. unfold bind. by destruct (m s) as [s' [a|e|]]. Qed.

Lemma try_catch_cong {A} (m m' : M A) (h h' : JsVal -> M A) s :
  (forall s', m s' = m' s') -> (forall e s', h e s' = h' e s') ->
  try_catch m h s = try_catch m' h' s.
Proof.
  intros Hm Hh. unfold try_catch. rewrite Hm.
  by destruct (m' s) as [s' [a|e|]].
Qed.

(** The [try] block is the loop of the state machine. *)
Lemma try_block_spec entry fuel options request context s :
  try_block entry fuel options request context s
  = spec_dispatch_loop (chain_executor entry) fuel options request context s.
Proof.
  rewrite try_block_unfold. revert s.
  induction fuel as [|fuel IH]; intros s; [done|].
  cbn [do_while spec_dispatch_loop]. rewrite pass_unfold at 1.
  rewrite !bind_assoc. apply bind_cong. intros _ s1.
  rewrite !bind_assoc. apply bind_cong. intros chain s2.
  rewrite !bind_assoc. apply bind_cong. intros response s3.
  rewrite !bind_assoc. apply bind_cong. intros _ s4.
  rewrite bind_ret_l, bind_assoc. apply bind_cong.
  intros [|] s5; [apply IH|done].
Qed.

Lemma dispatch_spec entry fuel request options s :
  dispatch entry fuel request options s
  = spec_dispatch (execution_tag entry) (chain_executor entry) fuel request
      options s.
Proof.
  rewrite dispatch_unfold. unfold spec_dispatch.
  apply bind_cong. intros request' s1. apply bind_cong. intros context s2.
  apply try_catch_cong; [|done]. intros s'. apply try_block_spec.
Qed.

End Refinement.

Section Agreement.
Context `{C : Collaborators}.

Lemma erase_contexts_fields s1 s2 :
  erase_contexts s1 = erase_contexts s2 ->
  router s1 = router s2 /\ world s1 = world s2.
Proof. unfold erase_contexts. by intros [= -> -> _ _]. Qed.

Lemma erase_set_world w s1 s2 :
  erase_contexts s1 = erase_contexts s2 ->
  erase_contexts (set_world w s1) = erase_contexts (set_world w s2).
Proof. unfold erase_contexts. simpl. by intros [= -> _ -> ->]. Qed.

Lemma erase_log_emitted ev1 ev2 s1 s2 :
  erase_context ev1 = erase_context ev2 ->
  erase_contexts s1 = erase_contexts s2 ->
  erase_contexts (log_emitted ev1 s1) = erase_contexts (log_emitted ev2 s2).
Proof.
  unfold erase_contexts. simpl. intros Hev [= -> -> He ->].
  by rewrite !fmap_app, He, !list_fmap_singleton, Hev.
Qed.

Lemma erase_log_delivered f ev1 ev2 s1 s2 :
  erase_context ev1 = erase_context ev2 ->
  erase_contexts s1 = erase_contexts s2 ->
  erase_contexts (log_delivered f ev1 s1)
  = erase_contexts (log_delivered f ev2 s2).
Proof.
  unfold erase_contexts. simpl. intros Hev [= -> -> -> Hd].
  by rewrite !fmap_app, Hd, !list_fmap_singleton; simpl; rewrite Hev.
Qed.

Lemma agree_ret {A} (a : A) : agree (ret a) (ret a).
Proof. by intros s1 s2 He. Qed.

Lemma agree_throw {A} e : agree (@throw _ A e) (throw e).
Proof. by intros s1 s2 He. Qed.

Lemma agree_pure_call {A} (c : Completion A) :
  agree (pure_call c) (pure_call c).
Proof. by intros s1 s2 He. Qed.

Lemma agree_bind {A B} (m1 m2 : M A) (k1 k2 : A -> M B) :
  agree m1 m2 -> (forall a, agree (k1 a) (k2 a)) ->
  agree (bind m1 k1) (bind m2 k2).
Proof.
  intros Hm Hk s1 s2 He. unfold bind. destruct (Hm s1 s2 He) as [Hs Hc].
  destruct (m1 s1) as [s1' c1], (m2 s2) as [s2' c2]. simpl in *. subst c2.
  destruct c1 as [a|e|]; [by apply Hk|done..].
Qed.

Lemma agree_try_catch {A} (m1 m2 : M A) (h1 h2 : JsVal -> M A) :
  agree m1 m2 -> (forall e, agree (h1 e) (h2 e)) ->
  agree (try_catch m1 h1) (try_catch m2 h2).
Proof.
  intros Hm Hh s1 s2 He. unfold try_catch. destruct (Hm s1 s2 He) as [Hs Hc].
  destruct (m1 s1) as [s1' c1], (m2 s2) as [s2' c2]. simpl in *. subst c2.
  destruct c1 as [a|e|]; [done|by apply Hh|done].
Qed.

Lemma agree_do_while {A} fuel (b1 b2 : M A) (c1 c2 : A -> M bool) :
  agree b1 b2 -> (forall a, agree (c1 a) (c2 a)) ->
  agree (do_while fuel b1 c1) (do_while fuel b2 c2).
Proof.
  intros Hb Hc. induction fuel as [|fuel IH]; simpl; [by intros s1 s2 He|].
  apply agree_bind; [done|]. intros a. apply agree_bind; [done|].
  intros [|]; [done|apply agree_ret].
Qed.

Lemma agree_this_middleware :
  agree Router.this_middleware Router.this_middleware.
Proof.
  intros s1 s2 He. simpl. split; [done|].
  by destruct (erase_contexts_fields _ _ He) as [-> _].
Qed.

Lemma agree_world_call {A} (f1 f2 : World -> World * Completion A) :
  (forall w, f1 w = f2 w) -> agree (world_call f1) (world_call f2).
Proof.
  intros Hf s1 s2 He. unfold world_call.
  destruct (erase_contexts_fields _ _ He) as [_ Hw]. rewrite Hw, Hf.
  destruct (f2 (world s2)) as [w c]. simpl. split; [|done].
  by apply erase_set_world.
Qed.

Section ContextBlind.
Hypothesis listeners_ignore_context :
  forall f ev ev' w,
    erase_context ev = erase_context ev' ->
    call_listener f ev w = call_listener f ev' w.

Lemma agree_invoke_all handlers ev1 ev2 :
  erase_context ev1 = erase_context ev2 ->
  agree (Emitter.invoke_all handlers ev1) (Emitter.invoke_all handlers ev2).
Proof.
  intros Hev. induction handlers as [|h rest IH]; simpl; [apply agree_ret|].
  apply agree_bind; [|done]. intros s1 s2 He. unfold Emitter.invoke.
  apply agree_world_call.
  - intros w. by apply listeners_ignore_context.
  - by apply erase_log_delivered.
Qed.

Lemma agree_emit type ev1 ev2 :
  erase_context ev1 = erase_context ev2 ->
  agree (Emitter.emit type ev1) (Emitter.emit type ev2).
Proof.
  intros Hev s1 s2 He. unfold Emitter.emit.
  destruct (erase_contexts_fields _ _ He) as [-> _].
  apply agree_invoke_all; [done|]. by apply erase_log_emitted.
Qed.

Lemma agree_route_catch request context1 context2 e :
  agree (Router.route_catch request context1 e)
    (Router.route_catch request context2 e).
Proof.
  unfold Router.route_catch. apply agree_bind; [by apply agree_emit|].
  intros _. apply agree_throw.
Qed.

Lemma agree_try_block fuel options request context1 context2 :
  (forall chain w,
     routeAsync request context2 chain w
     = ((routeSync request context1 chain w).1,
        async (routeSync request context1 chain w).2)) ->
  agree (try_block ViaRouteSync fuel options request context1)
    (try_block ViaRouteAsync fuel options request context2).
Proof.
  intros Hchain. rewrite !try_block_unfold.
  apply agree_bind; [|intros; apply agree_ret].
  apply agree_do_while.
  - rewrite !pass_unfold.
    apply agree_bind; [by apply agree_emit|]. intros _.
    apply agree_bind; [apply agree_this_middleware|]. intros chain.
    apply agree_bind; [|intros response;
      apply agree_bind; [by apply agree_emit|intros; apply agree_ret]].
    apply agree_world_call. intros w. simpl.
    unfold Router.await_routeAsync. rewrite Hchain, await_async.
    by destruct (routeSync request context1 chain w).
  - intros response. unfold Router.loop_condition.
    destruct (truthy _); [apply agree_pure_call|apply agree_ret].
Qed.

End ContextBlind.

End Agreement.

Section EntryPointsAgree.
Context `{C : Collaborators}.

(** C9, as the code has it.  [routeSync] is the state machine of the
    specification with the tag [Synchronous] and the chain executor
    [routeSync], and [routeAsync]
    is the promise of the same machine with the tag [Asynchronous] and the
    awaited executor [routeAsync].  When the two contexts are built, the
    two executors answer alike and the listeners do not look at the
    context, then from any state the promise of [routeAsync] is rejected
    with the exception [routeSync] throws or fulfilled with the result
    [routeSync] returns, the router and the environment end in the same
    state, and the events emitted and the calls to listeners are the same
    but for the context inside them. *)
Theorem entry_points_agree context_sync context_async :
  normaliseContext {| execution := Synchronous |} = Normal context_sync ->
  normaliseContext {| execution := Asynchronous |} = Normal context_async ->
  (forall request chain w,
     routeAsync request context_async chain w
     = ((routeSync request context_sync chain w).1,
        async (routeSync request context_sync chain w).2)) ->
  (forall f ev ev' w,
     erase_context ev = erase_context ev' ->
     call_listener f ev w = call_listener f ev' w) ->
  forall fuel request options s,
    Router.routeSync fuel request options s
    = spec_dispatch Synchronous routeSync fuel request options s /\
    Router.routeAsync fuel request options s
    = ((spec_dispatch Asynchronous Router.await_routeAsync fuel request
          options s).1,
       async (spec_dispatch Asynchronous Router.await_routeAsync fuel request
                options s).2) /\
    (Router.routeAsync fuel request options s).2
    = async (Router.routeSync fuel request options s).2 /\
    erase_contexts (Router.routeAsync fuel request options s).1
    = erase_contexts (Router.routeSync fuel request options s).1.
Proof.
  intros Hsync Hasync Hchain Hlisten fuel request options s.
  assert (agree (dispatch ViaRouteSync fuel request options)
            (dispatch ViaRouteAsync fuel request options)) as Hagree.
  { intros s1 s2 He. rewrite !dispatch_unfold. revert s1 s2 He.
    apply agree_bind; [apply agree_pure_call|]. intros request'.
    simpl. rewrite Hsync, Hasync. intros s1 s2 He. simpl.
    apply agree_try_catch; [by apply agree_try_block| |done].
    intros e. by apply agree_route_catch. }
  destruct (Hagree s s eq_refl) as [Hstate Houtcome].
  split_and!.
  - apply (dispatch_spec ViaRouteSync).
  - rewrite routeAsync_dispatch. by rewrite (dispatch_spec ViaRouteAsync).
  - rewrite routeAsync_dispatch. cbn [snd]. by rewrite <- Houtcome.
  - rewrite routeAsync_dispatch. cbn [fst]. by rewrite <- Hstate.
Qed.

End EntryPointsAgree.

(** In the sample environment the two entry points agree, for one on a
    request the chain answers after a redirect. *)
Lemma entry_points_agree_witness :
  (Router.routeAsync (C := Sample.collaborators) 3 Sample.request None
     (Sample.state_with [5])).2
  = async (Router.routeSync (C := Sample.collaborators) 3 Sample.request None
             (Sample.state_with [5])).2 /\
  erase_contexts
    (Router.routeAsync (C := Sample.collaborators) 3 Sample.request None
       (Sample.state_with [5])).1
  = erase_contexts
      (Router.routeSync (C := Sample.collaborators) 3 Sample.request None
         (Sample.state_with [5])).1.
Proof.
  destruct (entry_points_agree (C := Sample.collaborators)
              (Sample.context Synchronous) (Sample.context Asynchronous)
              eq_refl eq_refl
              (fun _ _ _ => eq_refl) (fun _ _ _ _ _ => eq_refl)
              3 Sample.request None (Sample.state_with [5]))
    as (_ & _ & Houtcome & Hstate).
  split; [exact Houtcome|exact Hstate].
Defined.

(** The executors answer alike and the listener 12, subscribed to
    [before], reads the execution tag of the context: [routeSync] returns
    a result and the promise of [routeAsync] is rejected. *)
Lemma entry_points_agree_counterexample :
  normaliseContext (Collaborators := TagAware.collaborators)
    {| execution := Synchronous |} = Normal (Sample.context Synchronous) /\
  normaliseContext (Collaborators := TagAware.collaborators)
    {| execution := Asynchronous |} = Normal (Sample.context Asynchronous) /\
  (fun request chain w =>
     routeAsync (Collaborators := TagAware.collaborators) request
       (Sample.context Asynchronous) chain w)
  = (fun request chain w =>
       ((routeSync (Collaborators := TagAware.collaborators) request
           (Sample.context Synchronous) chain w).1,
        async
          (routeSync (Collaborators := TagAware.collaborators) request
             (Sample.context Synchronous) chain w).2)) /\
  (Router.routeSync (C := TagAware.collaborators) 1 Sample.request None
     (Router.on Before 12 TagAware.state).1).2
  = Normal (Router.route_result Sample.request TagAware.answer) /\
  (Router.routeAsync (C := TagAware.collaborators) 1 Sample.request None
     (Router.on Before 12 TagAware.state).1).2
  = Rejected TagAware.refused /\
  count_events After
    (new_events (Router.on Before 12 TagAware.state).1
       (Router.routeSync (C := TagAware.collaborators) 1 Sample.request None
          (Router.on Before 12 TagAware.state).1).1) = 1 /\
  count_events After
    (new_events (Router.on Before 12 TagAware.state).1
       (Router.routeAsync (C := TagAware.collaborators) 1 Sample.request None
          (Router.on Before 12 TagAware.state).1).1) = 0.
Proof. split_and!; reflexivity. Qed.

(** * Further properties *)

(** ** Subscribing and unsubscribing *)

Section Subscriptions.
Context `{C : Collaborators}.

Lemma remove_first_absent (listener : Fn) handlers :
  listener ∉ handlers -> Emitter.remove_first listener handlers = handlers.
Proof.
  induction handlers as [|h rest IH]; [done|]. intros Hnot. simpl.
  rewrite decide_False by (intros ->; apply Hnot; left).
  rewrite IH; [done|]. intros Hin. apply Hnot. by right.
Qed.

Lemma remove_first_snoc (listener : Fn) handlers :
  listener ∉ handlers ->
  Emitter.remove_first listener (handlers ++ [listener]) = handlers.
Proof.
  induction handlers as [|h rest IH]; intros Hnot; simpl.
  - by rewrite decide_True.
  - rewrite decide_False by (intros ->; apply Hnot; left).
    rewrite IH; [done|]. intros Hin. apply Hnot. by right.
Qed.

Lemma filter_present (f : Fn) handlers :
  f ∈ handlers -> 0 < length (filter (fun h => h = f) handlers).
Proof.
  intros Hin.
  assert (f ∈ filter (fun h => h = f) handlers) as Hf
    by (by apply list_elem_of_filter).
  destruct (filter (fun h => h = f) handlers); [by inversion Hf|simpl; lia].
Qed.

(** [on] returns the router, touches neither the chain nor the
    environment nor the histories, and for every listener but the default
    one adds exactly the subscription asked for: no subscription of a
    user's listener is ever removed by [on]. *)
Theorem on_only_adds type listener s :
  (Router.on type listener s).2 = Normal (router (Router.on type listener s).1) /\
  middleware (router (Router.on type listener s).1) = middleware (router s) /\
  world (Router.on type listener s).1 = world s /\
  emitted (Router.on type listener s).1 = emitted s /\
  delivered (Router.on type listener s).1 = delivered s /\
  forall f type',
    f <> defaultErrorListener ->
    subscriptions f type' (Router.on type listener s).1
    = subscriptions f type' s
      + (if decide (type' = type /\ f = listener) then 1 else 0).
Proof.
  destruct (on_state type listener s) as (He & Hd & Hm & Hl).
  split_and!; try done; try by destruct type.
  intros f type' Hf. unfold subscriptions. rewrite Hl.
  destruct (decide (type = Error)) as [->|Hty].
  - destruct (decide (type' = Error)) as [->|Hty'].
    + rewrite filter_remove_first_ne by done.
      rewrite filter_app, length_app, filter_cons, filter_nil.
      destruct (decide (listener = f)) as [->|Hne].
      * by rewrite decide_True.
      * rewrite decide_False by (intros [_ ?]; by apply Hne). done.
    + rewrite decide_False by (by intros [? _]). lia.
  - destruct (decide (type = type')) as [<-|Hne].
    + rewrite filter_app, length_app, filter_cons, filter_nil.
      destruct (decide (listener = f)) as [->|Hnf].
      * by rewrite decide_True.
      * rewrite decide_False by (intros [_ ?]; by apply Hnf). done.
    + rewrite decide_False by (intros [? _]; by apply Hne). lia.
Qed.

(** [off] returns the router and touches neither the chain nor the
    environment nor the histories.  It leaves the other event types and
    the other listeners as they are, removes a subscription of the
    listener when there is one, and does nothing to the listeners when
    there is none. *)
Theorem off_only_removes type listener s :
  (Router.off type listener s).2
  = Normal (router (Router.off type listener s).1) /\
  middleware (router (Router.off type listener s).1) = middleware (router s) /\
  world (Router.off type listener s).1 = world s /\
  emitted (Router.off type listener s).1 = emitted s /\
  delivered (Router.off type listener s).1 = delivered s /\
  (forall type', type' <> type ->
     listeners type' (Router.off type listener s).1 = listeners type' s) /\
  (forall f, f <> listener ->
     subscriptions f type (Router.off type listener s).1
     = subscriptions f type s) /\
  (listener ∈ listeners type s ->
   subscriptions listener type (Router.off type listener s).1
   < subscriptions listener type s) /\
  (listener ∉ listeners type s ->
   forall type',
     listeners type' (Router.off type listener s).1 = listeners type' s).
Proof.
  destruct (off_state type listener s) as (He & Hd & Hm & Hl).
  split_and!; try done.
  - intros type' Hne. rewrite Hl. by rewrite decide_False.
  - intros f Hf. unfold subscriptions. rewrite Hl, decide_True by done.
    by rewrite filter_remove_first_ne.
  - intros Hin. unfold subscriptions. rewrite Hl, decide_True by done.
    rewrite filter_remove_first_eq.
    pose proof (filter_present _ _ Hin). lia.
  - intros Hnot type'. rewrite Hl. case_decide; [subst|done].
    by apply remove_first_absent.
Qed.

(** Subscribing a listener that was not subscribed and unsubscribing it
    again leaves the listeners of every event type as they were, except
    that for [error] the default listener must already be gone. *)
Theorem on_off_round_trip type listener s :
  listener ∉ listeners type s ->
  (type = Error -> defaultErrorListener ∉ listeners Error s) ->
  forall type',
    listeners type' (Router.off type listener (Router.on type listener s).1).1
    = listeners type' s.
Proof.
  intros Hnot Hdefault type'.
  destruct (off_state type listener (Router.on type listener s).1)
    as (_ & _ & _ & ->).
  destruct (on_state type listener s) as (_ & _ & _ & Hl). rewrite !Hl.
  destruct (decide (type = Error)) as [->|Hty].
  - specialize (Hdefault eq_refl).
    destruct (decide (Error = type')) as [<-|Hne'];
      [|by rewrite decide_False by (by intros ->)].
    destruct (decide (listener = defaultErrorListener)) as [->|Hne].
    + rewrite remove_first_snoc by done. by apply remove_first_absent.
    + rewrite (remove_first_absent defaultErrorListener).
      * by apply remove_first_snoc.
      * intros [Hin|Hin]%elem_of_app; [done|].
        apply list_elem_of_singleton in Hin. by apply Hne.
  - rewrite (decide_True (P := type = type)) by done.
    rewrite remove_first_snoc by done. case_decide; [by subst|done].
Qed.

(** Registering a middleware and subscribing or unsubscribing a listener
    do not interfere: in either order they leave the same state, and [use]
    has the same outcome whether it comes first or second. *)
Theorem registration_commutes_with_subscription
    methodOrMiddleware path middlewareOrResponse type listener s :
  (Router.use methodOrMiddleware path middlewareOrResponse
     (Router.on type listener s).1).1
  = (Router.on type listener
       (Router.use methodOrMiddleware path middlewareOrResponse s).1).1 /\
  (Router.use methodOrMiddleware path middlewareOrResponse
     (Router.off type listener s).1).1
  = (Router.off type listener
       (Router.use methodOrMiddleware path middlewareOrResponse s).1).1 /\
  drop_value
    (Router.use methodOrMiddleware path middlewareOrResponse
       (Router.on type listener s).1).2
  = drop_value (Router.use methodOrMiddleware path middlewareOrResponse s).2 /\
  drop_value
    (Router.use methodOrMiddleware path middlewareOrResponse
       (Router.off type listener s).1).2
  = drop_value (Router.use methodOrMiddleware path middlewareOrResponse s).2.
Proof.
  destruct (is_function methodOrMiddleware) eqn:Hf.
  { destruct methodOrMiddleware; try discriminate.
    rewrite !use_function. by destruct type. }
  destruct (truthy path && truthy middlewareOrResponse) eqn:Hp.
  - apply andb_true_iff in Hp as [Hp Hh].
    rewrite !(use_route _ _ _ _ Hf Hp Hh).
    destruct (createMiddleware _ _ _); by destruct type.
  - by rewrite !(use_invalid _ _ _ _ Hf Hp).
Qed.

End Subscriptions.

(** [on('before', 10)] adds one subscription of 10 to [before] and none of
    12. *)
Lemma on_only_adds_witness :
  subscriptions (C := Sample.collaborators) 10 Before
    (Router.on Before 10 (Sample.state_with [])).1
  = subscriptions (C := Sample.collaborators) 10 Before (Sample.state_with [])
    + 1 /\
  subscriptions (C := Sample.collaborators) 12 Before
    (Router.on Before 10 (Sample.state_with [])).1
  = subscriptions (C := Sample.collaborators) 12 Before (Sample.state_with [])
    + 0.
Proof.
  destruct (on_only_adds (C := Sample.collaborators) Before 10
              (Sample.state_with [])) as (_ & _ & _ & _ & _ & Hsubs).
  split.
  - apply (Hsubs 10 Before). discriminate.
  - apply (Hsubs 12 Before). discriminate.
Defined.

(** [off('after', 10)] after [on('after', 10)] removes the subscription;
    on a new router it changes no listener. *)
Lemma off_only_removes_witness :
  subscriptions (C := Sample.collaborators) 10 After
    (Router.off After 10 (Router.on After 10 (Sample.state_with [])).1).1
  < subscriptions (C := Sample.collaborators) 10 After
      (Router.on After 10 (Sample.state_with [])).1 /\
  listeners (C := Sample.collaborators) Error
    (Router.off After 10 (Sample.state_with [])).1
  = listeners (C := Sample.collaborators) Error (Sample.state_with []).
Proof.
  split.
  - destruct (off_only_removes (C := Sample.collaborators) After 10
                (Router.on After 10 (Sample.state_with [])).1)
      as (_ & _ & _ & _ & _ & _ & _ & Hless & _).
    apply Hless. vm_compute. left.
  - destruct (off_only_removes (C := Sample.collaborators) After 10
                (Sample.state_with []))
      as (_ & _ & _ & _ & _ & _ & _ & _ & Hnoop).
    apply Hnoop. vm_compute. apply not_elem_of_nil.
Defined.

(** A listener of [before] subscribed and unsubscribed again. *)
Lemma on_off_round_trip_witness :
  listeners (C := Sample.collaborators) Before
    (Router.off Before 10 (Router.on Before 10 (Sample.state_with [])).1).1
  = listeners (C := Sample.collaborators) Before (Sample.state_with []).
Proof.
  apply (on_off_round_trip (C := Sample.collaborators) Before 10
           (Sample.state_with [])).
  - vm_compute. apply not_elem_of_nil.
  - discriminate.
Defined.

(** ** The wrappers and the route entry builder *)

Section Builder.
Context `{C : Collaborators}.

(** A verb wrapper never registers its handler as it is.  With a path and
    a handler that are truthy it registers what [createMiddleware] builds
    from its method pattern, the path and the handler, a handler that is a
    function included; with a path or a handler that is missing or falsy
    it throws the [TypeError] of [use] and changes nothing. *)
Theorem verb_wrapper_outcomes verb path middlewareOrResponse s :
  (forall m,
     truthy path = true -> truthy middlewareOrResponse = true ->
     createMiddleware (VStr (method_pattern verb)) path middlewareOrResponse
     = Normal m ->
     wrapper verb path middlewareOrResponse s
     = ((Router.middleware_push m s).1,
        Normal (router (Router.middleware_push m s).1))) /\
  (truthy path && truthy middlewareOrResponse = false ->
   wrapper verb path middlewareOrResponse s
   = (s, Throw (VError "TypeError" "Invalid arguments."))).
Proof.
  rewrite wrapper_use. split.
  - intros m Hp Hh Hm. by rewrite use_route, Hm.
  - by apply use_invalid.
Qed.

(** When [createMiddleware] throws, [use] and the wrappers throw what it
    throws and the state is as before: nothing is registered. *)
Theorem builder_failure_registers_nothing method path middlewareOrResponse s e :
  truthy path = true -> truthy middlewareOrResponse = true ->
  (is_function method = false ->
   createMiddleware method path middlewareOrResponse = Throw e ->
   Router.use method path middlewareOrResponse s = (s, Throw e)) /\
  (forall verb,
     createMiddleware (VStr (method_pattern verb)) path middlewareOrResponse
     = Throw e ->
     wrapper verb path middlewareOrResponse s = (s, Throw e)).
Proof.
  intros Hp Hh. split.
  - intros Hf He. by rewrite use_route, He.
  - intros verb He. by rewrite wrapper_use, use_route, He.
Qed.

End Builder.

(** [get('/x', f)] registers the middleware built for [f], and [get('/x')]
    throws. *)
Lemma verb_wrapper_outcomes_witness :
  Router.get (C := Sample.collaborators) (VStr "/x") (VFun 1)
    (Sample.state_with [])
  = ((Router.middleware_push 101 (Sample.state_with [])).1,
     Normal (router (Router.middleware_push 101 (Sample.state_with [])).1)) /\
  Router.get (C := Sample.collaborators) (VStr "/x") VUndefined
    (Sample.state_with [])
  = (Sample.state_with [], Throw (VError "TypeError" "Invalid arguments.")).
Proof.
  destruct (verb_wrapper_outcomes (C := Sample.collaborators) Get (VStr "/x")
              (VFun 1) (Sample.state_with [])) as [Hbuilt _].
  destruct (verb_wrapper_outcomes (C := Sample.collaborators) Get (VStr "/x")
              VUndefined (Sample.state_with [])) as [_ Hinvalid].
  split; [apply Hbuilt; reflexivity|apply Hinvalid; reflexivity].
Defined.

(** A path the builder refuses. *)
Lemma builder_failure_registers_nothing_witness :
  Router.use (C := Faulty.collaborators) (VStr "get") (VStr "(") (VFun 1)
    Faulty.state
  = (Faulty.state, Throw (VError "SyntaxError" "Invalid pattern")) /\
  Router.post (C := Faulty.collaborators) (VStr "(") (VFun 1) Faulty.state
  = (Faulty.state, Throw (VError "SyntaxError" "Invalid pattern")).
Proof.
  destruct (builder_failure_registers_nothing (C := Faulty.collaborators)
              (VStr "get") (VStr "(") (VFun 1) Faulty.state
              (VError "SyntaxError" "Invalid pattern") eq_refl eq_refl)
    as [Huse Hverb].
  split; [apply Huse; reflexivity|apply (Hverb Post); reflexivity].
Defined.

(** ** The events of a dispatch *)

Section Traces.
Context `{C : Collaborators}.

Lemma loop_condition_state options response s :
  (Router.loop_condition options response s).1 = s.
Proof. unfold Router.loop_condition. by destruct (truthy _). Qed.

(** The loop emits the events of the passes that were answered, then at
    most a [before] event; when it ends with a response, that response is
    the one of the last pass. *)
Lemma loop_trace entry fuel options request context s :
  exists responses pre,
    emitted (do_while fuel (pass entry request context)
               (Router.loop_condition options) s).1
    = emitted s ++ passes request context responses ++ pre /\
    length responses <= fuel /\
    match (do_while fuel (pass entry request context)
             (Router.loop_condition options) s).2 with
    | Normal response => pre = [] /\ last responses = Some response
    | _ => pre = [] \/ pre = [BeforeEvent request context]
    end.
Proof.
  revert s. induction fuel as [|fuel IH]; intros s.
  { exists [], []. simpl. rewrite app_nil_r. split_and!; auto. }
  remember (do_while (S fuel) (pass entry request context)
              (Router.loop_condition options) s) as r eqn:Hr.
  cbn [do_while] in Hr. unfold bind in Hr.
  pose proof (pass_events entry request context s) as Hpass.
  destruct (pass entry request context s) as [s1 c]. simpl in Hpass.
  destruct Hpass as [[Hev Hnot]|(response & Hev & Hresp)].
  { exists [], [BeforeEvent request context].
    destruct c as [a|e|]; [by destruct (Hnot a)|..]; subst r; simpl;
      (split_and!; [done|lia|by right]). }
  destruct c as [a|e|];
    [|(subst r; exists [response], []; simpl; rewrite ?app_nil_r;
       split_and!; [done|lia|by left])..].
  rewrite (Hresp a eq_refl) in *. clear Hresp a.
  pose proof (loop_condition_state options response s1) as Hcond.
  destruct (Router.loop_condition options response s1) as [s1' [[|]|e|]];
    simpl in Hcond; subst s1';
    [|(subst r; exists [response], []; simpl; rewrite ?app_nil_r;
       split_and!; try done; try lia; auto)..].
  destruct (IH s1) as (responses & pre & Hloop & Hlen & Hend). subst r.
  exists (response :: responses), pre. rewrite Hloop, Hev, <- app_assoc.
  split_and!; [done|simpl; lia|].
  destruct (do_while fuel _ _ s1).2 as [a| |]; [|done..].
  destruct Hend as [-> Hlast]. split; [done|].
  destruct responses; [done|by rewrite last_cons, Hlast].
Qed.

(** The events of a dispatch.  It emits, for the normalised request and
    the context alone, [before] and [after] in turn, once for every pass
    that was answered, at most as many passes as the loop was allowed.
    When it returns, that is all, and the result is made from the response
    of the last [after] event.  When it throws, one [error] event follows,
    after at most one more [before] event, and ends the events.  Nothing
    else is ever emitted. *)
Theorem dispatch_trace_shape entry fuel request options s request' context :
  normaliseRequest request = Normal request' ->
  normaliseContext {| execution := execution_tag entry |} = Normal context ->
  exists responses tail,
    new_events s (dispatch entry fuel request options s).1
    = passes request' context responses ++ tail /\
    length responses <= fuel /\
    match (dispatch entry fuel request options s).2 with
    | Normal result =>
        tail = [] /\
        exists response,
          last responses = Some response /\
          result = Router.route_result request' response
    | Throw _ =>
        exists e,
          tail = [ErrorEvent request' e context] \/
          tail = [BeforeEvent request' context; ErrorEvent request' e context]
    | Diverge =>
        tail = [] \/ tail = [BeforeEvent request' context] \/
        exists e,
          tail = [ErrorEvent request' e context] \/
          tail = [BeforeEvent request' context; ErrorEvent request' e context]
    end.
Proof.
  intros Hreq Hctx. rewrite (dispatch_normalised _ _ _ _ _ _ _ Hreq Hctx).
  unfold try_catch. rewrite try_block_unfold. unfold bind.
  destruct (loop_trace entry fuel (default Router.default_options options)
              request' context s) as (responses & pre & Hloop & Hlen & Hend).
  destruct (do_while fuel _ _ s) as [s1 [response|e|]]; simpl in *.
  - destruct Hend as [-> Hlast]. exists responses, [].
    rewrite (new_events_app _ _ _ Hloop). split_and!; try done.
    by exists response.
  - pose proof (route_catch_emitted request' context e s1) as He.
    rewrite Hloop, <- !app_assoc in He.
    exists responses, (pre ++ [ErrorEvent request' e context]).
    rewrite (new_events_app _ _ _ He). split_and!; [done..|].
    rewrite route_catch_run. simpl.
    destruct (Router.emitErrorEvent request' e context s1).2 as [[]|e'|];
      simpl; destruct Hend as [->| ->]; simpl;
      first [by exists e; auto|by right; right; exists e; auto].
  - exists responses, pre. rewrite (new_events_app _ _ _ Hloop).
    split_and!; [done..|]. destruct Hend as [->| ->]; auto.
Qed.

End Traces.

(** A dispatch that is answered after a redirect. *)
Lemma dispatch_trace_shape_witness :
  exists responses tail,
    new_events (Sample.state_with [5])
      (dispatch (C := Sample.collaborators) ViaRouteSync 3 Sample.request None
         (Sample.state_with [5])).1
    = passes Sample.request (Sample.context Synchronous) responses ++ tail /\
    length responses <= 3 /\
    match (dispatch (C := Sample.collaborators) ViaRouteSync 3 Sample.request
             None (Sample.state_with [5])).2 with
    | Normal result =>
        tail = [] /\
        exists response,
          last responses = Some response /\
          result = Router.route_result Sample.request response
    | Throw _ =>
        exists e,
          tail = [ErrorEvent Sample.request e (Sample.context Synchronous)] \/
          tail = [BeforeEvent Sample.request (Sample.context Synchronous);
                  ErrorEvent Sample.request e (Sample.context Synchronous)]
    | Diverge =>
        tail = [] \/
        tail = [BeforeEvent Sample.request (Sample.context Synchronous)] \/
        exists e,
          tail = [ErrorEvent Sample.request e (Sample.context Synchronous)] \/
          tail = [BeforeEvent Sample.request (Sample.context Synchronous);
                  ErrorEvent Sample.request e (Sample.context Synchronous)]
    end.
Proof.
  apply (dispatch_trace_shape (C := Sample.collaborators) ViaRouteSync 3
           Sample.request None (Sample.state_with [5])); reflexivity.
Defined.

(** ** Failures and the redirect loop *)

Section Failures.
Context `{C : Collaborators}.

Lemma emit_no_listeners type ev s :
  Emitter.handlers_of (emitter (router s)) type = [] ->
  Emitter.emit type ev s = (log_emitted ev s, Normal tt).
Proof. intros Hnone. unfold Emitter.emit. by rewrite Hnone. Qed.

Lemma emit_result_quiet type ev s :
  (forall f w, f ∈ Emitter.handlers_of (emitter (router s)) type ->
               (call_listener f ev w).2 = Normal tt) ->
  Emitter.emit type ev s = ((Emitter.emit type ev s).1, Normal tt).
Proof.
  intros Hq. pose proof (emit_quiet type ev s Hq) as H.
  by destruct (Emitter.emit type ev s) as [s' c]; simpl in *; subst.
Qed.

Lemma pass_before_throw entry request context s s1 e :
  Router.emitBeforeEvent request context s = (s1, Throw e) ->
  pass entry request context s = (s1, Throw e).
Proof. intros Hb. rewrite pass_unfold. unfold bind at 1. by rewrite Hb. Qed.

Lemma pass_chain_throw entry request context s s1 w2 e :
  Router.emitBeforeEvent request context s = (s1, Normal tt) ->
  chain_executor entry request context (middleware (router s1)) (world s1)
  = (w2, Throw e) ->
  pass entry request context s = (set_world w2 s1, Throw e).
Proof.
  intros Hb Hchain. rewrite pass_unfold.
  rewrite (bind_normal _ _ _ _ _ Hb).
  unfold bind, Router.this_middleware, world_call. by rewrite Hchain.
Qed.

Lemma try_block_classifier_throw
    entry fuel options request context s s1 response e :
  pass entry request context s = (s1, Normal response) ->
  truthy (get_prop options "redirect") = true ->
  isRedirect response = Throw e ->
  try_block entry (S fuel) options request context s = (s1, Throw e).
Proof.
  intros Hpass Hopt Hred. rewrite try_block_unfold. simpl.
  unfold Router.loop_condition, pure_call, bind. by rewrite Hpass, Hopt, Hred.
Qed.

Lemma route_catch_not_normal request context e s result :
  (Router.route_catch request context e s).2 <> Normal result.
Proof.
  rewrite route_catch_run. simpl.
  by destruct (Router.emitErrorEvent request e context s).2 as [[]|e'|].
Qed.

Lemma dispatch_try_throw entry fuel request options s request' context s1 e :
  normaliseRequest request = Normal request' ->
  normaliseContext {| execution := execution_tag entry |} = Normal context ->
  try_block entry fuel (default Router.default_options options)
    request' context s = (s1, Throw e) ->
  dispatch entry fuel request options s
  = Router.route_catch request' context e s1.
Proof.
  intros Hreq Hctx Htry. rewrite (dispatch_normalised _ _ _ _ _ _ _ Hreq Hctx).
  unfold try_catch. by rewrite Htry.
Qed.

Lemma before_emitted request context s s1 c :
  Router.emitBeforeEvent request context s = (s1, c) ->
  emitted s1 = emitted s ++ [BeforeEvent request context].
Proof.
  intros Hb.
  pose proof (emit_emitted "before" (BeforeEvent request context) s) as H.
  fold (Router.emitBeforeEvent request context) in H. by rewrite Hb in H.
Qed.

Lemma after_emitted request response context s s1 c :
  Router.emitAfterEvent request response context s = (s1, c) ->
  emitted s1 = emitted s ++ [AfterEvent request response context].
Proof.
  intros Ha.
  pose proof (emit_emitted "after" (AfterEvent request response context) s)
    as H.
  fold (Router.emitAfterEvent request response context) in H.
  by rewrite Ha in H.
Qed.

(** A failure before the chain has answered.  When a [before] listener
    throws, the chain is not run: the dispatch goes from the state the
    listeners left straight to the [catch] block.  When the chain throws,
    no [after] event is emitted.  Either way the events of the dispatch
    are [before] and [error], the latter with the exception thrown. *)
Theorem failure_before_answer entry fuel request options s request' context :
  normaliseRequest request = Normal request' ->
  normaliseContext {| execution := execution_tag entry |} = Normal context ->
  (forall s1 e,
     Router.emitBeforeEvent request' context s = (s1, Throw e) ->
     dispatch entry (S fuel) request options s
     = Router.route_catch request' context e s1 /\
     new_events s (dispatch entry (S fuel) request options s).1
     = [BeforeEvent request' context; ErrorEvent request' e context]) /\
  (forall s1 w2 e,
     Router.emitBeforeEvent request' context s = (s1, Normal tt) ->
     chain_executor entry request' context (middleware (router s1)) (world s1)
     = (w2, Throw e) ->
     dispatch entry (S fuel) request options s
     = Router.route_catch request' context e (set_world w2 s1) /\
     new_events s (dispatch entry (S fuel) request options s).1
     = [BeforeEvent request' context; ErrorEvent request' e context]).
Proof.
  intros Hreq Hctx. split.
  - intros s1 e Hb.
    pose proof (try_block_pass_throw entry fuel
                  (default Router.default_options options) _ _ _ _ _
                  (pass_before_throw entry _ _ _ _ _ Hb)) as Htry.
    rewrite (dispatch_try_throw _ _ _ _ _ _ _ _ _ Hreq Hctx Htry).
    split; [done|]. apply new_events_app.
    rewrite route_catch_emitted, (before_emitted _ _ _ _ _ Hb).
    by rewrite <- app_assoc.
  - intros s1 w2 e Hb Hchain.
    pose proof (try_block_pass_throw entry fuel
                  (default Router.default_options options) _ _ _ _ _
                  (pass_chain_throw entry _ _ _ _ _ _ Hb Hchain)) as Htry.
    rewrite (dispatch_try_throw _ _ _ _ _ _ _ _ _ Hreq Hctx Htry).
    split; [done|]. apply new_events_app.
    rewrite route_catch_emitted. simpl. rewrite (before_emitted _ _ _ _ _ Hb).
    by rewrite <- app_assoc.
Qed.

(** A failure after the chain has answered.  When an [after] listener
    throws, or when the redirect option is truthy and [isRedirect] throws,
    the response is lost: the dispatch goes to the [catch] block and does
    not return, and its events are [before], [after] with the response,
    and [error] with the exception thrown. *)
Theorem failure_after_answer
    entry fuel request options s request' context s1 w2 response :
  normaliseRequest request = Normal request' ->
  normaliseContext {| execution := execution_tag entry |} = Normal context ->
  Router.emitBeforeEvent request' context s = (s1, Normal tt) ->
  chain_executor entry request' context (middleware (router s1)) (world s1)
  = (w2, Normal response) ->
  forall s3 e,
    Router.emitAfterEvent request' response context (set_world w2 s1)
    = (s3, Throw e) \/
    (Router.emitAfterEvent request' response context (set_world w2 s1)
     = (s3, Normal tt) /\
     truthy (get_prop (default Router.default_options options) "redirect")
     = true /\
     isRedirect response = Throw e) ->
    dispatch entry (S fuel) request options s
    = Router.route_catch request' context e s3 /\
    (forall result,
       (dispatch entry (S fuel) request options s).2 <> Normal result) /\
    new_events s (dispatch entry (S fuel) request options s).1
    = [BeforeEvent request' context; AfterEvent request' response context;
       ErrorEvent request' e context].
Proof.
  intros Hreq Hctx Hb Hchain s3 e Hfail.
  pose proof (pass_after _ _ _ _ _ _ _ Hb Hchain) as Hpass.
  assert (try_block entry (S fuel) (default Router.default_options options)
            request' context s = (s3, Throw e) /\
          emitted s3
          = emitted s ++ [BeforeEvent request' context;
                          AfterEvent request' response context])
    as [Htry Hev].
  { destruct Hfail as [Ha|(Ha & Hopt & Hred)]; rewrite Ha in Hpass;
      simpl in Hpass.
    - split; [by apply try_block_pass_throw|].
      rewrite (after_emitted _ _ _ _ _ _ Ha). simpl.
      by rewrite (before_emitted _ _ _ _ _ Hb), <- app_assoc.
    - split; [by apply (try_block_classifier_throw _ _ _ _ _ _ _ _ _ Hpass)|].
      rewrite (after_emitted _ _ _ _ _ _ Ha). simpl.
      by rewrite (before_emitted _ _ _ _ _ Hb), <- app_assoc. }
  rewrite (dispatch_try_throw _ _ _ _ _ _ _ _ _ Hreq Hctx Htry).
  split_and!; [done|intros; apply route_catch_not_normal|].
  apply new_events_app. by rewrite route_catch_emitted, Hev, <- app_assoc.
Qed.

End Failures.

(** A [before] listener that throws, and a chain that throws. *)
Lemma failure_before_answer_witness :
  new_events (Router.on Before 11 (Sample.state_with [1])).1
    (dispatch (C := Sample.collaborators) ViaRouteSync 1 Sample.request None
       (Router.on Before 11 (Sample.state_with [1])).1).1
  = [BeforeEvent Sample.request (Sample.context Synchronous);
     ErrorEvent Sample.request Sample.listener_failed
       (Sample.context Synchronous)] /\
  new_events (Sample.state_with [2])
    (dispatch (C := Sample.collaborators) ViaRouteAsync 1 Sample.request None
       (Sample.state_with [2])).1
  = [BeforeEvent Sample.request (Sample.context Asynchronous);
     ErrorEvent Sample.request Sample.boom (Sample.context Asynchronous)].
Proof.
  split.
  - destruct (failure_before_answer (C := Sample.collaborators) ViaRouteSync
                0 Sample.request None
                (Router.on Before 11 (Sample.state_with [1])).1
                Sample.request (Sample.context Synchronous) eq_refl eq_refl)
      as [Hlistener _].
    apply (Hlistener
             (Router.emitBeforeEvent Sample.request
                (Sample.context Synchronous)
                (Router.on Before 11 (Sample.state_with [1])).1).1
             Sample.listener_failed).
    reflexivity.
  - destruct (failure_before_answer (C := Sample.collaborators) ViaRouteAsync
                0 Sample.request None (Sample.state_with [2])
                Sample.request (Sample.context Asynchronous) eq_refl eq_refl)
      as [_ Hchain].
    apply (Hchain
             (Router.emitBeforeEvent Sample.request
                (Sample.context Asynchronous) (Sample.state_with [2])).1
             (1 : @World Sample.collaborators) Sample.boom); reflexivity.
Defined.

(** An [after] listener that throws, and a classifier that throws. *)
Lemma failure_after_answer_witness :
  new_events (Router.on After 11 (Sample.state_with [1])).1
    (dispatch (C := Sample.collaborators) ViaRouteSync 1 Sample.request None
       (Router.on After 11 (Sample.state_with [1])).1).1
  = [BeforeEvent Sample.request (Sample.context Synchronous);
     AfterEvent Sample.request Sample.ok_response (Sample.context Synchronous);
     ErrorEvent Sample.request Sample.listener_failed
       (Sample.context Synchronous)] /\
  new_events Faulty.state
    (dispatch (C := Faulty.collaborators) ViaRouteSync 1 Sample.request None
       Faulty.state).1
  = [BeforeEvent Sample.request Faulty.no_context;
     AfterEvent Sample.request Faulty.no_response Faulty.no_context;
     ErrorEvent Sample.request (VError "TypeError" "status")
       Faulty.no_context].
Proof.
  split.
  - apply (failure_after_answer (C := Sample.collaborators) ViaRouteSync 0
             Sample.request None
             (Router.on After 11 (Sample.state_with [1])).1
             Sample.request (Sample.context Synchronous)
             (Router.emitBeforeEvent Sample.request
                (Sample.context Synchronous)
                (Router.on After 11 (Sample.state_with [1])).1).1
             (1 : @World Sample.collaborators) Sample.ok_response
             eq_refl eq_refl eq_refl eq_refl
             (Router.emitAfterEvent Sample.request Sample.ok_response
                (Sample.context Synchronous)
                (set_world (1 : @World Sample.collaborators)
                   (Router.emitBeforeEvent Sample.request
                      (Sample.context Synchronous)
                      (Router.on After 11 (Sample.state_with [1])).1).1)).1
             Sample.listener_failed).
    left. reflexivity.
  - apply (failure_after_answer (C := Faulty.collaborators) ViaRouteSync 0
             Sample.request None Faulty.state
             Sample.request Faulty.no_context
             (Router.emitBeforeEvent Sample.request Faulty.no_context
                Faulty.state).1
             (1 : @World Faulty.collaborators) Faulty.no_response
             eq_refl eq_refl eq_refl eq_refl
             (Router.emitAfterEvent Sample.request Faulty.no_response
                Faulty.no_context
                (set_world (1 : @World Faulty.collaborators)
                   (Router.emitBeforeEvent Sample.request Faulty.no_context
                      Faulty.state).1)).1
             (VError "TypeError" "status")).
    right. split_and!; reflexivity.
Defined.

Section Loop.
Context `{C : Collaborators}.

Lemma try_block_redirects_forever
    entry options request context (r0 : Router) fuel :
  truthy (get_prop options "redirect") = true ->
  (forall w, exists response,
     (chain_executor entry request context (middleware r0) w).2
     = Normal response /\
     isRedirect response = Normal true) ->
  (forall f ev w,
     f ∈ Emitter.handlers_of (emitter r0) "before" \/
     f ∈ Emitter.handlers_of (emitter r0) "after" ->
     (call_listener f ev w).2 = Normal tt) ->
  forall s,
    router s = r0 ->
    (try_block entry fuel options request context s).2 = Diverge /\
    exists responses,
      length responses = fuel /\
      emitted (try_block entry fuel options request context s).1
      = emitted s ++ passes request context responses.
Proof.
  intros Hopt Hchain Hquiet.
  induction fuel as [|fuel IH]; intros s Hs.
  { rewrite try_block_unfold. simpl. split; [done|].
    exists []. by rewrite app_nil_r. }
  assert (Router.emitBeforeEvent request context s
          = ((Router.emitBeforeEvent request context s).1, Normal tt)) as Hb.
  { apply emit_result_quiet. rewrite Hs. intros f w Hf. apply Hquiet. by left. }
  set (s1 := (Router.emitBeforeEvent request context s).1) in *.
  assert (router s1 = r0) as Hs1.
  { unfold s1, Router.emitBeforeEvent. by rewrite emit_router. }
  destruct (Hchain (world s1)) as (response & Hresp & Hred).
  assert (chain_executor entry request context (middleware (router s1))
            (world s1)
          = ((chain_executor entry request context (middleware r0)
                (world s1)).1, Normal response)) as Hex.
  { rewrite Hs1. by destruct (chain_executor _ _ _ _ _) as [w c];
      simpl in *; subst. }
  set (w2 := (chain_executor entry request context (middleware r0)
                (world s1)).1) in *.
  assert (Router.emitAfterEvent request response context (set_world w2 s1)
          = ((Router.emitAfterEvent request response context
                (set_world w2 s1)).1, Normal tt)) as Ha.
  { apply emit_result_quiet. simpl. rewrite Hs1.
    intros f w Hf. apply Hquiet. by right. }
  set (s3 := (Router.emitAfterEvent request response context
                (set_world w2 s1)).1) in *.
  assert (router s3 = r0) as Hs3.
  { unfold s3, Router.emitAfterEvent. by rewrite emit_router. }
  pose proof (pass_after _ _ _ _ _ _ _ Hb Hex) as Hpass.
  rewrite Ha in Hpass. simpl in Hpass.
  rewrite (try_block_step _ _ _ _ _ _ _ _ _ Hpass Hred), Hopt. simpl.
  destruct (IH s3 Hs3) as (Hdiv & responses & Hlen & Hev).
  split; [done|]. exists (response :: responses). split; [simpl; lia|].
  rewrite Hev, (after_emitted _ _ _ _ _ _ Ha). simpl.
  rewrite (before_emitted _ _ _ _ _ Hb). by rewrite <- !app_assoc.
Qed.

(** The redirect loop dispatches the same request again.  With a truthy
    redirect option, a chain that answers that request with a redirect
    whatever the state of the environment, and [before] and [after]
    listeners that return, the dispatch does not end: however many passes
    the loop is allowed, it makes them all, each for the same request and
    context, and neither returns nor throws. *)
Theorem redirect_loop_never_ends entry fuel request options s request' context :
  normaliseRequest request = Normal request' ->
  normaliseContext {| execution := execution_tag entry |} = Normal context ->
  truthy (get_prop (default Router.default_options options) "redirect") = true ->
  (forall w, exists response,
     (chain_executor entry request' context (middleware (router s)) w).2
     = Normal response /\
     isRedirect response = Normal true) ->
  (forall f ev w,
     f ∈ listeners Before s \/ f ∈ listeners After s ->
     (call_listener f ev w).2 = Normal tt) ->
  (dispatch entry fuel request options s).2 = Diverge /\
  exists responses,
    length responses = fuel /\
    new_events s (dispatch entry fuel request options s).1
    = passes request' context responses.
Proof.
  intros Hreq Hctx Hopt Hchain Hquiet.
  destruct (try_block_redirects_forever entry
              (default Router.default_options options) request' context
              (router s) fuel Hopt Hchain Hquiet s eq_refl)
    as (Hdiv & responses & Hlen & Hev).
  rewrite (dispatch_normalised _ _ _ _ _ _ _ Hreq Hctx). unfold try_catch.
  destruct (try_block entry fuel _ request' context s) as [s1 c].
  simpl in *. subst c. split; [done|].
  exists responses. split; [done|]. by apply new_events_app.
Qed.

(** Without listeners of [error], an exception of the [try] block is
    raised and the [error] event reaches nobody: the state after the
    dispatch is the state the [try] block left, with the event added to
    the history.  That is the state of the listeners after
    [on('error', listener)] and [off('error', listener)] on a new router:
    no listener is left for any event type. *)
Theorem unsubscribed_errors_pass_silently :
  (forall w listener,
     listener <> defaultErrorListener ->
     forall type,
       listeners type
         (Router.off Error listener
            (Router.on Error listener (new_state w)).1).1 = []) /\
  (forall entry fuel request options s request' context s1 e,
     normaliseRequest request = Normal request' ->
     normaliseContext {| execution := execution_tag entry |} = Normal context ->
     listeners Error s = [] ->
     try_block entry fuel (default Router.default_options options)
       request' context s = (s1, Throw e) ->
     dispatch entry fuel request options s
     = (log_emitted (ErrorEvent request' e context) s1, Throw e)).
Proof.
  split.
  - intros w listener Hne type.
    destruct (off_state Error listener
                (Router.on Error listener (new_state w)).1)
      as (_ & _ & _ & ->).
    destruct (on_state Error listener (new_state w)) as (_ & _ & _ & Hl).
    rewrite !Hl.
    assert (listeners Error (new_state w) = [defaultErrorListener]) as ->
      by done.
    destruct type; simpl; try done.
    rewrite decide_True by done. simpl. by rewrite decide_True.
  - intros entry fuel request options s request' context s1 e
      Hreq Hctx Hnone Htry.
    rewrite (dispatch_try_throw _ _ _ _ _ _ _ _ _ Hreq Hctx Htry).
    assert (router s1 = router s) as Hr.
    { pose proof (respects_try_block (fun s s' => router s' = router s)
                    ltac:(split; [by intros ?|by intros ??? -> ->])
                    ltac:(done) entry fuel
                    (default Router.default_options options) request' context
                    ltac:(intros ev _ s'; apply emit_router) s) as H.
      by rewrite Htry in H. }
    rewrite route_catch_run. unfold Router.emitErrorEvent.
    rewrite emit_no_listeners; [done|]. by rewrite Hr.
Qed.

(** A dispatch on a router without listeners of [before] and [after]
    calls no listener.  When its chain answers with a response that is not
    followed as a redirect, it returns the result made from the response
    and leaves the router and the calls to listeners as they were, the
    environment as the chain left it, and [before] and [after] added to
    the events. *)
Theorem dispatch_without_listeners
    entry fuel request options s request' context w2 response :
  normaliseRequest request = Normal request' ->
  normaliseContext {| execution := execution_tag entry |} = Normal context ->
  listeners Before s = [] -> listeners After s = [] ->
  chain_executor entry request' context (middleware (router s)) (world s)
  = (w2, Normal response) ->
  (truthy (get_prop (default Router.default_options options) "redirect") = true ->
   isRedirect response = Normal false) ->
  dispatch entry (S fuel) request options s
  = ({| router := router s; world := w2;
        emitted := emitted s ++ [BeforeEvent request' context;
                                 AfterEvent request' response context];
        delivered := delivered s |},
     Normal (Router.route_result request' response)).
Proof.
  intros Hreq Hctx Hnb Hna Hchain Hred.
  assert (Router.emitBeforeEvent request' context s
          = (log_emitted (BeforeEvent request' context) s, Normal tt)) as Hb
    by (by apply emit_no_listeners).
  pose proof (pass_after entry _ _ _ _ _ _ Hb Hchain) as Hpass.
  unfold Router.emitAfterEvent in Hpass.
  rewrite emit_no_listeners in Hpass by done. simpl in Hpass.
  rewrite (dispatch_normalised _ _ _ _ _ _ _ Hreq Hctx). unfold try_catch.
  rewrite (try_block_pass_last _ _ _ _ _ _ _ _ Hpass Hred).
  unfold log_emitted, set_world. simpl. by rewrite <- app_assoc.
Qed.

End Loop.

(** A chain that always answers a redirect, followed by default. *)
Lemma redirect_loop_never_ends_witness :
  (dispatch (C := Sample.collaborators) ViaRouteSync 4 Sample.request None
     (Sample.state_with [3])).2 = Diverge /\
  exists responses,
    length responses = 4 /\
    new_events (Sample.state_with [3])
      (dispatch (C := Sample.collaborators) ViaRouteSync 4 Sample.request None
         (Sample.state_with [3])).1
    = passes Sample.request (Sample.context Synchronous) responses.
Proof.
  apply (redirect_loop_never_ends (C := Sample.collaborators) ViaRouteSync 4
           Sample.request None (Sample.state_with [3])
           Sample.request (Sample.context Synchronous)).
  - reflexivity.
  - reflexivity.
  - reflexivity.
  - intros w. exists Sample.redirect_response. split; reflexivity.
  - intros f ev w [Hf|Hf]; vm_compute in Hf; by apply not_elem_of_nil in Hf.
Defined.

(** After [on('error', 10)] and [off('error', 10)] nobody listens, and the
    exception of the chain is raised without a call to a listener. *)
Lemma unsubscribed_errors_pass_silently_witness :
  listeners (C := Sample.collaborators) Error
    (Router.off Error 10
       (Router.on Error 10 (new_state (0 : @World Sample.collaborators))).1).1
  = [] /\
  dispatch (C := Sample.collaborators) ViaRouteSync 1 Sample.request None
    (Router.off Error 10 (Router.on Error 10 (Sample.state_with [2])).1).1
  = (log_emitted
       (ErrorEvent Sample.request Sample.boom (Sample.context Synchronous))
       (try_block ViaRouteSync 1 Router.default_options Sample.request
          (Sample.context Synchronous)
          (Router.off Error 10
             (Router.on Error 10 (Sample.state_with [2])).1).1).1,
     Throw Sample.boom).
Proof.
  destruct (unsubscribed_errors_pass_silently (C := Sample.collaborators))
    as [Hnone Hsilent].
  split.
  - apply Hnone. discriminate.
  - apply (Hsilent ViaRouteSync 1 Sample.request None
             (Router.off Error 10
                (Router.on Error 10 (Sample.state_with [2])).1).1
             Sample.request (Sample.context Synchronous)); reflexivity.
Defined.

(** A new router whose chain answers 200. *)
Lemma dispatch_without_listeners_witness :
  dispatch (C := Sample.collaborators) ViaRouteAsync 1 Sample.request None
    (Sample.state_with [1])
  = ({| router := router (Sample.state_with [1]);
        world := (1 : @World Sample.collaborators);
        emitted :=
          [BeforeEvent Sample.request (Sample.context Asynchronous);
           AfterEvent Sample.request Sample.ok_response
             (Sample.context Asynchronous)];
        delivered := [] |},
     Normal (Router.route_result Sample.request Sample.ok_response)).
Proof.
  apply (dispatch_without_listeners (C := Sample.collaborators) ViaRouteAsync
           0 Sample.request None (Sample.state_with [1])
           Sample.request (Sample.context Asynchronous)
           (1 : @World Sample.collaborators) Sample.ok_response);
    reflexivity.
Defined.
